(** * The scrape endpoint of the unified server

    A shallow embedding of [scrape_sources] (src/unified_server.py, the
    handler of [POST /api/v1/scrape]) together with the request model
    [ScrapeRequest], the response model [ScrapeResponse] and the four
    process-wide metrics the handler updates.

    Conventions of the embedding:
    - a Python [str] is a Rocq [string]; one [ascii] stands for one code
      point in the range U+0000..U+00FF, and [lower]/[strip] below follow
      Python's [str.lower]/[str.strip] on that range;
    - [time.time()] readings are integers in an arbitrary fixed unit; the
      clock is part of the environment of one call of the handler;
    - [len(...)] and the Prometheus counters are natural numbers;
    - the orchestrator is an external collaborator: what it would answer is
      part of the environment of one call, and the state counts how often it
      was created and called. *)

From Stdlib Require Import ZArith Ascii String List Bool Lia Permutation.
From stdpp Require Import gmap strings list fin_maps.

Local Open Scope string_scope.

(** ** Python string operations used for the cache key *)

Module PyStr.

(** Code points for which [str.isspace] holds, below U+0100:
    U+0009..U+000D, U+001C..U+0020, U+0085 and U+00A0. *)
Definition is_space (c : ascii) : bool :=
  let n := N_of_ascii c in
  (((9 <=? n) && (n <=? 13)) || ((28 <=? n) && (n <=? 32))
   || (n =? 133) || (n =? 160))%N.

(** Upper-case code points below U+0100: A..Z and the Latin-1 capitals
    U+00C0..U+00DE without the multiplication sign U+00D7. *)
Definition is_upper (c : ascii) : bool :=
  let n := N_of_ascii c in
  (((65 <=? n) && (n <=? 90))
   || ((192 <=? n) && (n <=? 222) && negb (n =? 215)))%N.

Definition lower_char (c : ascii) : ascii :=
  if is_upper c then ascii_of_N (N_of_ascii c + 32) else c.

(** [s.lower()] *)
Fixpoint lower (s : string) : string :=
  match s with
  | EmptyString => EmptyString
  | String c s' => String (lower_char c) (lower s')
  end.

(** [s.lstrip()] *)
Fixpoint lstrip (s : string) : string :=
  match s with
  | EmptyString => EmptyString
  | String c s' => if is_space c then lstrip s' else s
  end.

(** [s.rstrip()] *)
Fixpoint rstrip (s : string) : string :=
  match s with
  | EmptyString => EmptyString
  | String c s' =>
      match rstrip s' with
      | EmptyString => if is_space c then EmptyString else String c EmptyString
      | t => String c t
      end
  end.

(** [s.strip()] *)
Definition strip (s : string) : string := rstrip (lstrip s).

(** A string that does not start with white space. *)
Definition no_leading_space (s : string) : Prop :=
  match s with
  | EmptyString => True
  | String c _ => is_space c = false
  end.

(** [sep.join(l)] *)
Definition join (sep : string) (l : list string) : string :=
  String.concat sep l.

End PyStr.

(** ** Data model *)

(** The opaque payload a scraper returns ([data: Any]). *)
Definition Payload : Type := string.

(** One outcome of the orchestrator ([academic_scraper.ScrapingResult]),
    with the five attributes the handler reads. *)
Module ScrapingResult.
Record t : Type := mk {
  source : string;
  success : bool;
  data : option Payload;
  error : option string;
  response_time : option Z
}.
End ScrapingResult.

(** The dictionary built for each result ([result_dict]). *)
Module ResultDict.
Record t : Type := mk {
  source : string;
  success : bool;
  data : option Payload;
  error : option string;
  execution_time : option Z;
  cached : bool
}.
End ResultDict.

Module ScrapeRequest.
Record t : Type := mk {
  query : string;
  sources : option (list string)
}.
End ScrapeRequest.

Module ScrapeResponse.
Record t : Type := mk {
  success : bool;
  query : string;
  results : list ResultDict.t;
  total_sources : nat;
  successful_sources : nat;
  execution_time : Z
}.
End ScrapeResponse.

(** The cache key of line 202:
    [f"{request.query.lower().strip()}|{','.join(request.sources or [])}"]. *)
Definition normalized_query (q : string) : string :=
  PyStr.strip (PyStr.lower q).

(** [request.sources or []]: [None] and the empty list both give [[]]. *)
Definition sources_or_empty (s : option (list string)) : list string :=
  match s with
  | None => []
  | Some l => l
  end.

Definition cache_key (request : ScrapeRequest.t) : string :=
  normalized_query (ScrapeRequest.query request)
  ++ "|" ++ PyStr.join "," (sources_or_empty (ScrapeRequest.sources request)).

(** ** The cache adapter *)

(** Modelled from the spec: the class [CacheManager] (module
    [cache_manager]) is not among the sources.  The spec gives its contract:
    a key-value store whose entries carry a creation timestamp and a TTL;
    [get] answers nothing when the key was never set or its TTL has elapsed
    and otherwise the stored response; [set] writes the entry.  The handler
    calls [set] without a TTL, so the adapter's default applies.  The clock
    reading of each call is an argument. *)
Module CacheManager.

Record entry : Type := mk_entry {
  value : ScrapeResponse.t;
  created : Z;
  ttl : Z
}.

Record t : Type := mk {
  store : gmap string entry;
  default_ttl : Z
}.

Definition new (default_ttl : Z) : t := mk ∅ default_ttl.

Definition get (c : t) (now : Z) (key : string) : option ScrapeResponse.t :=
  match store c !! key with
  | Some e => if (now - created e <? ttl e)%Z then Some (value e) else None
  | None => None
  end.

Definition set (c : t) (now : Z) (key : string) (v : ScrapeResponse.t) : t :=
  mk (<[key := mk_entry v now (default_ttl c)]> (store c)) (default_ttl c).

(** The entry under [key], if there is one, has not expired at [now]. *)
Definition not_expired (c : t) (now : Z) (key : string) : Prop :=
  ∀ e, store c !! key = Some e → (now - created e < ttl e)%Z.

End CacheManager.

(** ** Metrics (lines 29-32) *)

(** [Counter(..., ['source'])]: one count per label value. *)
Definition counter_value (c : gmap string nat) (label : string) : nat :=
  default 0%nat (c !! label).

(** [counter.labels(label).inc()] *)
Definition counter_inc (c : gmap string nat) (label : string) : gmap string nat :=
  <[label := S (counter_value c label)]> c.

(** [Histogram(..., ['source'])]: the observations per label value, oldest
    first. *)
Definition observations (h : gmap string (list Z)) (label : string) : list Z :=
  default [] (h !! label).

(** [histogram.labels(label).observe(v)] *)
Definition histogram_observe (h : gmap string (list Z)) (label : string) (v : Z)
  : gmap string (list Z) :=
  <[label := (observations h label ++ [v])%list]> h.

(** ** State and environment of the handler *)

Record State : Type := mkState {
  cache : CacheManager.t;
  scrape_counter : gmap string nat;
  scrape_duration : gmap string (list Z);
  cache_hits : nat;
  cache_misses : nat;
  (** how often [create_scraping_orchestrator] was reached (lines 213-214) *)
  orchestrator_calls : nat
}.

Definition initial (default_ttl : Z) : State :=
  mkState (CacheManager.new default_ttl) ∅ ∅ 0 0 0.

(** What lines 213-214 produce: the result sequence, or an exception raised
    by the creation of the orchestrator or by [scrape_all_sources]. *)
Inductive Outcome : Type :=
| Returned (results : list ScrapingResult.t)
| Raised.

(** The environment of one call: the clock readings, in program order, and
    the orchestrator's answer to [(query, sources)]. *)
Record Env : Type := mkEnv {
  t_start : Z;   (* time.time() of line 201 *)
  t_get : Z;     (* clock seen by cache.get, line 203 *)
  t_done : Z;    (* time.time() of line 218 or of line 252 *)
  t_set : Z;     (* clock seen by cache.set, line 245 *)
  orchestrator : string → option (list string) → Outcome
}.

(** ** The handler *)

(** Lines 227-234: the dictionary of one result. *)
Definition result_dict (result : ScrapingResult.t) : ResultDict.t :=
  ResultDict.mk
    (ScrapingResult.source result)
    (ScrapingResult.success result)
    (ScrapingResult.data result)
    (ScrapingResult.error result)
    (ScrapingResult.response_time result)
    false.

(** Lines 222-235: one turn of the loop over [results]. *)
Definition loop_body
    (acc : gmap string nat * gmap string (list Z) * list ResultDict.t)
    (result : ScrapingResult.t)
  : gmap string nat * gmap string (list Z) * list ResultDict.t :=
  let '(counter, duration, results_data) := acc in
  let counter := counter_inc counter (ScrapingResult.source result) in
  let duration :=
    match ScrapingResult.response_time result with
    | Some rt => histogram_observe duration (ScrapingResult.source result) rt
    | None => duration
    end in
  (counter, duration, (results_data ++ [result_dict result])%list).

(** Lines 221-235. *)
Definition process_results
    (counter : gmap string nat) (duration : gmap string (list Z))
    (results : list ScrapingResult.t)
  : gmap string nat * gmap string (list Z) * list ResultDict.t :=
  fold_left loop_body results (counter, duration, []).

(** Lines 254-261: the response of the [except] branch. *)
Definition fallback_response (request : ScrapeRequest.t) (execution_time : Z)
  : ScrapeResponse.t :=
  ScrapeResponse.mk false (ScrapeRequest.query request) [] 0 0 execution_time.

(** Lines 199-262.  A [ScrapeResponse] object is truthy, so [if cached:]
    holds exactly when [cache.get] answered a response. *)
Definition scrape_sources (st : State) (request : ScrapeRequest.t) (env : Env)
  : State * ScrapeResponse.t :=
  let start_time := t_start env in
  let key := cache_key request in
  match CacheManager.get (cache st) (t_get env) key with
  | Some cached =>
      (mkState (cache st) (scrape_counter st) (scrape_duration st)
               (S (cache_hits st)) (cache_misses st) (orchestrator_calls st),
       cached)
  | None =>
      let misses := S (cache_misses st) in
      let calls := S (orchestrator_calls st) in
      match orchestrator env (ScrapeRequest.query request)
                             (ScrapeRequest.sources request) with
      | Returned results =>
          let successful_results :=
            List.filter ScrapingResult.success results in
          let execution_time := (t_done env - start_time)%Z in
          let '(counter, duration, results_data) :=
            process_results (scrape_counter st) (scrape_duration st) results in
          let response :=
            ScrapeResponse.mk
              (0 <? length successful_results)%nat
              (ScrapeRequest.query request)
              results_data
              (length results)
              (length successful_results)
              execution_time in
          (mkState (CacheManager.set (cache st) (t_set env) key response)
                   counter duration (cache_hits st) misses calls,
           response)
      | Raised =>
          let execution_time := (t_done env - start_time)%Z in
          (mkState (cache st) (scrape_counter st) (scrape_duration st)
                   (cache_hits st) misses calls,
           fallback_response request execution_time)
      end
  end.

(** ** The API boundary *)

(** [query: str = Field(..., min_length=1, max_length=500)] (line 36); the
    lengths are counted on the query as sent, before any normalisation. *)
Definition validate (request : ScrapeRequest.t) : bool :=
  let n := String.length (ScrapeRequest.query request) in
  ((1 <=? n) && (n <=? 500))%nat.

Inductive HttpResult : Type :=
| Ok200 (response : ScrapeResponse.t)
| Unprocessable422.

(** [POST /api/v1/scrape]: the framework validates the body against
    [ScrapeRequest] and only then runs the handler. *)
Definition post_scrape (st : State) (request : ScrapeRequest.t) (env : Env)
  : State * HttpResult :=
  if validate request then
    let '(st', response) := scrape_sources st request env in
    (st', Ok200 response)
  else (st, Unprocessable422).

(** The states the server can be in: a fresh process, then any number of
    requests. *)
Inductive reachable : State → Prop :=
| reachable_initial default_ttl : reachable (initial default_ttl)
| reachable_step st request env :
    reachable st → reachable (post_scrape st request env).1.

(** ** Closed forms used in the statements below *)

(** The response of lines 237-244 for the result sequence [results]. *)
Definition fresh_response
    (request : ScrapeRequest.t) (env : Env) (results : list ScrapingResult.t)
  : ScrapeResponse.t :=
  ScrapeResponse.mk
    (0 <? length (List.filter ScrapingResult.success results))%nat
    (ScrapeRequest.query request)
    (map result_dict results)
    (length results)
    (length (List.filter ScrapingResult.success results))
    (t_done env - t_start env)%Z.

(** How many results of the sequence carry the source [label]. *)
Definition results_for (label : string) (results : list ScrapingResult.t) : nat :=
  length (List.filter
            (λ r, bool_decide (ScrapingResult.source r = label)) results).

(** The response times present among the results of source [label], in the
    order of the sequence. *)
Definition times_for (label : string) (results : list ScrapingResult.t) : list Z :=
  omap (λ r, if bool_decide (ScrapingResult.source r = label)
             then ScrapingResult.response_time r else None) results.

(** Every entry of the cache holds a response the handler computed for a
    request with that key. *)
Definition cache_inv (st : State) : Prop :=
  ∀ k e, CacheManager.store (cache st) !! k = Some e →
    ∃ request env results,
      k = cache_key request
      ∧ CacheManager.value e = fresh_response request env results.

(** ** Concrete requests, environments and states used in the examples below *)

Definition request_wp : ScrapeRequest.t :=
  ScrapeRequest.mk "x" (Some ["wikipedia"; "pubmed"]).

Definition request_pw : ScrapeRequest.t :=
  ScrapeRequest.mk "x" (Some ["pubmed"; "wikipedia"]).

Definition request_Hello : ScrapeRequest.t := ScrapeRequest.mk "Hello" None.

Definition request_hello : ScrapeRequest.t := ScrapeRequest.mk "hello" None.

Definition request_empty : ScrapeRequest.t := ScrapeRequest.mk EmptyString None.

Definition wikipedia_ok : ScrapingResult.t :=
  ScrapingResult.mk "wikipedia" true (Some "page") None (Some 12%Z).

Definition pubmed_failed : ScrapingResult.t :=
  ScrapingResult.mk "pubmed" false None (Some "timeout") None.

(** A call at time 100 whose orchestrator returns two results. *)
Definition env_returning : Env :=
  mkEnv 100 101 130 131 (λ _ _, Returned [wikipedia_ok; pubmed_failed]).

(** A call at time 200 whose orchestrator raises. *)
Definition env_raising : Env :=
  mkEnv 200 201 230 231 (λ _ _, Raised).

(** A call at time 300 whose orchestrator returns two results. *)
Definition env_later : Env :=
  mkEnv 300 301 340 341 (λ _ _, Returned [wikipedia_ok; pubmed_failed]).

(** A fresh process with a TTL of 3600, after one fresh computation. *)
Definition st_after_Hello : State :=
  (post_scrape (initial 3600) request_Hello env_returning).1.

(** A fresh process with a TTL of 3600, after one failed dispatch. *)
Definition st_after_failure : State :=
  (post_scrape (initial 3600) request_Hello env_raising).1.

(** The response computed for [request_Hello] in [env_returning]. *)
Definition response_Hello : ScrapeResponse.t :=
  ScrapeResponse.mk true "Hello"
    [ResultDict.mk "wikipedia" true (Some "page") None (Some 12%Z) false;
     ResultDict.mk "pubmed" false None (Some "timeout") None false]
    2 1 30.

(** ** Predicates on strings used in the statements about the key *)

(** [c in s] *)
Fixpoint contains_char (c : ascii) (s : string) : bool :=
  match s with
  | EmptyString => false
  | String d s' => Ascii.eqb c d || contains_char c s'
  end.

(** Every character of [s] is white space ([s.isspace()], or [s] empty). *)
Fixpoint all_space (s : string) : bool :=
  match s with
  | EmptyString => true
  | String c s' => PyStr.is_space c && all_space s'
  end.

Definition starts_with_space (s : string) : bool :=
  match s with
  | EmptyString => false
  | String c _ => PyStr.is_space c
  end.

Fixpoint ends_with_space (s : string) : bool :=
  match s with
  | EmptyString => false
  | String c EmptyString => PyStr.is_space c
  | String _ s' => ends_with_space s'
  end.

Fixpoint has_upper (s : string) : bool :=
  match s with
  | EmptyString => false
  | String c s' => PyStr.is_upper c || has_upper s'
  end.

(** A source identifier that is not empty and holds no comma. *)
Definition plain_source (s : string) : Prop :=
  s ≠ EmptyString ∧ contains_char ","%char s = false.

(** ** A sequence of calls of the endpoint *)

Fixpoint run (st : State) (calls : list (ScrapeRequest.t * Env)) : State :=
  match calls with
  | [] => st
  | (request, env) :: rest => run (post_scrape st request env).1 rest
  end.

(** ** The other endpoints *)

(** The four attributes of a source configuration that [get_sources] reads
    (lines 178-181). *)
Module SourceConfig.
Record t : Type := mk {
  name : string;
  enabled : bool;
  rate_limit_delay : Z;
  base_url : string
}.
End SourceConfig.

(** The dictionary of lines 177-182. *)
Module SourceConfigDict.
Record t : Type := mk {
  name : string;
  enabled : bool;
  rate_limit_delay : Z;
  base_url : string
}.
End SourceConfigDict.

(** What [self.config.get_source_config(source)] produces: a configuration,
    [None], or an exception. *)
Inductive Lookup : Type :=
| Found (source_config : SourceConfig.t)
| Missing
| LookupRaised (message : string).

(** The parts of the configuration object the server reads:
    [config.api.cors_enabled], [config.environment.value] and
    [config.get_source_config]. *)
Module Config.
Record t : Type := mk {
  cors_enabled : bool;
  environment : string;
  get_source_config : string → Lookup
}.
End Config.

(** What [create_scraping_orchestrator()] produces in [health_check] and
    [get_sources]: an orchestrator, of which only
    [list(orchestrator.scrapers.keys())] is read, or an exception. *)
Inductive Creation : Type :=
| Created (scrapers : list string)
| CreationRaised (message : string).

(** The server object: the module flag [UNIFIED_CONFIG_AVAILABLE], fixed at
    import, the attribute [self.config], which exists only when [__init__]
    set it, whether the CORS middleware was added, and [self.startup_time].
    The cache and the metrics are in [State]. *)
Record UnifiedServer : Type := mkUnifiedServer {
  UNIFIED_CONFIG_AVAILABLE : bool;
  config : option Config.t;
  cors_middleware : bool;
  startup_time : Z
}.

(** [UnifiedServer.__init__] (lines 64-100), [get_config] being what
    [get_config()] returns and [now] the clock of line 97. *)
Definition UnifiedServer_init
    (available : bool) (get_config : Config.t) (now : Z) : UnifiedServer :=
  if available
  then mkUnifiedServer true (Some get_config)
                       (Config.cors_enabled get_config) now
  else mkUnifiedServer false None true now.

(** The message of the exception raised by reading [self.config] when
    [__init__] did not set it. *)
Definition no_config_attribute : string :=
  "'UnifiedServer' object has no attribute 'config'".

Module HealthResponse.
Record t : Type := mk {
  status : string;
  uptime : Z;
  version : string;
  environment : string;
  scrapers_available : list string
}.
End HealthResponse.

Inductive HealthResult : Type :=
| HealthOk (response : HealthResponse.t)
| Http503 (detail : string).

(** [health_check] (lines 144-163); [now] is the clock of line 151. *)
Definition health_check (self : UnifiedServer) (created : Creation) (now : Z)
  : HealthResult :=
  match created with
  | CreationRaised message => Http503 ("Service unhealthy: " ++ message)
  | Created available_scrapers =>
      let uptime := (now - startup_time self)%Z in
      if UNIFIED_CONFIG_AVAILABLE self then
        match config self with
        | Some c =>
            HealthOk (HealthResponse.mk "healthy" uptime "2.0.0"
                        (Config.environment c) available_scrapers)
        | None => Http503 ("Service unhealthy: " ++ no_config_attribute)
        end
      else
        HealthOk (HealthResponse.mk "healthy" uptime "2.0.0"
                    "unknown" available_scrapers)
  end.

Module SourcesResponse.
Record t : Type := mk {
  available_sources : list string;
  source_configs : gmap string SourceConfigDict.t
}.
End SourcesResponse.

Inductive SourcesResult : Type :=
| SourcesOk (response : SourcesResponse.t)
| Http500 (detail : string).

(** Lines 177-182. *)
Definition source_config_dict (source_config : SourceConfig.t)
  : SourceConfigDict.t :=
  SourceConfigDict.mk
    (SourceConfig.name source_config)
    (SourceConfig.enabled source_config)
    (SourceConfig.rate_limit_delay source_config)
    (SourceConfig.base_url source_config).

(** [self.config.get_source_config(source)], the attribute [self.config]
    being read at every turn of the loop. *)
Definition lookup_source_config (self : UnifiedServer) (source : string)
  : Lookup :=
  match config self with
  | Some c => Config.get_source_config c source
  | None => LookupRaised no_config_attribute
  end.

(** The loop of lines 174-182; [inl] is the message of an exception that
    left it. *)
Fixpoint collect_source_configs
    (self : UnifiedServer) (available_sources : list string)
    (source_configs : gmap string SourceConfigDict.t)
  : string + gmap string SourceConfigDict.t :=
  match available_sources with
  | [] => inr source_configs
  | source :: rest =>
      match lookup_source_config self source with
      | Found source_config =>
          collect_source_configs self rest
            (<[source := source_config_dict source_config]> source_configs)
      | Missing => collect_source_configs self rest source_configs
      | LookupRaised message => inl message
      end
  end.

(** [get_sources] (lines 166-191). *)
Definition get_sources (self : UnifiedServer) (created : Creation)
  : SourcesResult :=
  match created with
  | CreationRaised message =>
      Http500 ("Failed to retrieve sources: " ++ message)
  | Created available_sources =>
      if UNIFIED_CONFIG_AVAILABLE self then
        match collect_source_configs self available_sources ∅ with
        | inr source_configs =>
            SourcesOk (SourcesResponse.mk available_sources source_configs)
        | inl message => Http500 ("Failed to retrieve sources: " ++ message)
        end
      else SourcesOk (SourcesResponse.mk available_sources ∅)
  end.

(** A JSON value of the body of [POST /api/v1/research]: null, a boolean,
    an integer, a string, or any other value (a float, an array, an object),
    kept as its text. *)
Inductive Any : Type :=
| PyNone
| PyBool (b : bool)
| PyInt (z : Z)
| PyStr (s : string)
| PyOther (json : string).

(** The keyword arguments of [ResearchRequest(...)] (lines 270-278). *)
Module ResearchRequest.
Record t : Type := mk {
  query : Any;
  strategy : Any;
  domain : Any;
  sources : Any;
  max_results : Any;
  user_id : Any;
  budget_limit : Any
}.
End ResearchRequest.

(** [payload.get(key, default)]; [payload.get(key)] is
    [dict_get payload key PyNone]. *)
Definition dict_get (payload : gmap string Any) (key : string) (default : Any)
  : Any :=
  match payload !! key with
  | Some v => v
  | None => default
  end.

(** Lines 270-278. *)
Definition research_request (payload : gmap string Any) : ResearchRequest.t :=
  ResearchRequest.mk
    (dict_get payload "query" (PyStr EmptyString))
    (dict_get payload "strategy" (PyStr "balanced"))
    (dict_get payload "domain" (PyStr "general"))
    (dict_get payload "sources" PyNone)
    (dict_get payload "max_results" (PyInt 10))
    (dict_get payload "user_id" (PyStr "default"))
    (dict_get payload "budget_limit" PyNone).

(** The keys the handler reads from the body. *)
Definition research_keys : list string :=
  ["query"; "strategy"; "domain"; "sources"; "max_results"; "user_id";
   "budget_limit"].

(** What lines 268-279 produce for the request built from the body: the
    dictionary of lines 280-292, or the message of an exception (of the
    import, of a constructor or of [engine.research]). *)
Inductive Researched (R : Type) : Type :=
| ResearchDone (response : R)
| ResearchRaised (message : string).

Arguments ResearchDone {R} response.
Arguments ResearchRaised {R} message.

Inductive ResearchResult (R : Type) : Type :=
| ResearchOk (response : R)
| ResearchHttp500 (detail : string).

Arguments ResearchOk {R} response.
Arguments ResearchHttp500 {R} detail.

(** [research_endpoint] (lines 266-295). *)
Definition research_endpoint {R : Type}
    (engine : ResearchRequest.t → Researched R) (payload : gmap string Any)
  : ResearchResult R :=
  match engine (research_request payload) with
  | ResearchDone response => ResearchOk response
  | ResearchRaised message => ResearchHttp500 message
  end.

(** ** Concrete inputs for the other endpoints *)

Definition wikipedia_config : SourceConfig.t :=
  SourceConfig.mk "Wikipedia" true 1 "https://en.wikipedia.org".

Definition config_example : Config.t :=
  Config.mk false "production"
    (λ source, if String.eqb source "wikipedia"
               then Found wikipedia_config else Missing).

Definition server_example : UnifiedServer :=
  UnifiedServer_init true config_example 1000.

Definition blank_request : ScrapeRequest.t :=
  ScrapeRequest.mk "   " (Some ["wikipedia"]).

(** A call at time 100 whose orchestrator returns one failed result. *)
Definition env_all_failed : Env :=
  mkEnv 100 101 130 131 (λ _ _, Returned [pubmed_failed]).

(** * Properties *)

Example cache_key_ex1 :
  cache_key (ScrapeRequest.mk "  Neural Networks " (Some ["wikipedia"; "pubmed"]))
  = "neural networks|wikipedia,pubmed".
Proof. reflexivity. Qed.

Example cache_key_ex2 :
  cache_key (ScrapeRequest.mk "X" None) = "x|".
Proof. reflexivity. Qed.


(** The bar and the comma are not escaped: a query containing a bar can
    share its key with a shorter query and a source list. *)
Example cache_key_bar_collision :
  cache_key (ScrapeRequest.mk "a|b" None)
  = cache_key (ScrapeRequest.mk "a" (Some ["b|"])).
Proof. reflexivity. Qed.

(** ** Normalisation of the query *)

Section Normalisation.

Import PyStr.

Lemma lower_char_idem c : lower_char (lower_char c) = lower_char c.
Proof. destruct c as [[] [] [] [] [] [] [] []]; reflexivity. Qed.

(** Lower-casing never turns a character into or out of white space. *)
Lemma is_space_lower_char c : is_space (lower_char c) = is_space c.
Proof. destruct c as [[] [] [] [] [] [] [] []]; reflexivity. Qed.

Lemma lower_idem s : lower (lower s) = lower s.
Proof.
  induction s as [|c s IH]; simpl; [reflexivity|].
  now rewrite lower_char_idem, IH.
Qed.

Lemma lower_lstrip s : lower (lstrip s) = lstrip (lower s).
Proof.
  induction s as [|c s IH]; simpl; [reflexivity|].
  rewrite is_space_lower_char. destruct (is_space c); [exact IH|reflexivity].
Qed.

Lemma lower_rstrip s : lower (rstrip s) = rstrip (lower s).
Proof.
  induction s as [|c s IH]; simpl; [reflexivity|].
  rewrite <- IH, is_space_lower_char.
  destruct (rstrip s); simpl; [destruct (is_space c)|]; reflexivity.
Qed.

Lemma lower_strip s : lower (strip s) = strip (lower s).
Proof. unfold strip. now rewrite lower_rstrip, lower_lstrip. Qed.

Lemma lstrip_no_leading_space s : no_leading_space (lstrip s).
Proof.
  induction s as [|c s IH]; simpl; [exact I|].
  destruct (is_space c) eqn:E; [exact IH|exact E].
Qed.

Lemma lstrip_fixed s : no_leading_space s → lstrip s = s.
Proof. destruct s as [|c s]; simpl; [reflexivity|]. now intros ->. Qed.

Lemma rstrip_no_leading_space s :
  no_leading_space s → no_leading_space (rstrip s).
Proof.
  destruct s as [|c s]; simpl; [exact id|]. intros E.
  rewrite E. now destruct (rstrip s).
Qed.

Lemma rstrip_idem s : rstrip (rstrip s) = rstrip s.
Proof.
  induction s as [|c s IH]; simpl; [reflexivity|].
  destruct (rstrip s) as [|d t] eqn:E.
  - destruct (is_space c) eqn:Ec; simpl; [reflexivity|now rewrite Ec].
  - change (rstrip (String c (String d t)))
      with (match rstrip (String d t) with
            | EmptyString =>
                if is_space c then EmptyString else String c EmptyString
            | u => String c u
            end).
    now rewrite IH.
Qed.

Lemma strip_idem s : strip (strip s) = strip s.
Proof.
  unfold strip.
  rewrite (lstrip_fixed (rstrip (lstrip s))).
  - apply rstrip_idem.
  - apply rstrip_no_leading_space, lstrip_no_leading_space.
Qed.

(** Normalising twice is normalising once: the key of a request and the
    key of the same request with its query already normalised agree. *)
Lemma normalized_query_idem q :
  normalized_query (normalized_query q) = normalized_query q.
Proof.
  unfold normalized_query.
  now rewrite <- lower_strip, strip_idem, lower_strip, lower_idem.
Qed.

End Normalisation.

(** ** The cache key (C2) *)

(** C2, as stated, fails: the two requests have the same query and list the
    same two source identifiers, in a different order, and their cache keys
    differ, because line 202 joins the sources in request order. *)
Lemma cache_key_depends_on_source_order :
  normalized_query (ScrapeRequest.query request_wp)
  = normalized_query (ScrapeRequest.query request_pw)
  ∧ Permutation (sources_or_empty (ScrapeRequest.sources request_wp))
                (sources_or_empty (ScrapeRequest.sources request_pw))
  ∧ cache_key request_wp = "x|wikipedia,pubmed"
  ∧ cache_key request_pw = "x|pubmed,wikipedia"
  ∧ cache_key request_wp ≠ cache_key request_pw.
Proof.
  split; [reflexivity|]. split; [apply perm_swap|].
  split; [reflexivity|]. split; [reflexivity|].
  vm_compute. discriminate.
Qed.

(** C2, amended: the cache key is the lower-cased, then stripped query,
    a bar, and the requested source identifiers joined by commas in the
    order of the request (an absent list counting as empty); hence two
    requests whose queries normalise to the same string and whose source
    lists are the same sequence have the same cache key. *)
Theorem cache_key_same_sequence (r1 r2 : ScrapeRequest.t) :
  normalized_query (ScrapeRequest.query r1)
  = normalized_query (ScrapeRequest.query r2) →
  sources_or_empty (ScrapeRequest.sources r1)
  = sources_or_empty (ScrapeRequest.sources r2) →
  cache_key r1
  = PyStr.strip (PyStr.lower (ScrapeRequest.query r1))
    ++ "|" ++ PyStr.join "," (sources_or_empty (ScrapeRequest.sources r1))
  ∧ cache_key r1 = cache_key r2.
Proof.
  intros Hq Hs. split; [reflexivity|].
  unfold cache_key. now rewrite Hq, Hs.
Qed.

Lemma cache_key_same_sequence_witness :
  cache_key (ScrapeRequest.mk " Graph Theory" None)
  = cache_key (ScrapeRequest.mk "graph theory  " (Some [])).
Proof.
  refine (proj2 (cache_key_same_sequence
                   (ScrapeRequest.mk " Graph Theory" None)
                   (ScrapeRequest.mk "graph theory  " (Some [])) _ _));
    reflexivity.
Defined.

(** ** The loop over the results *)

Lemma fold_loop_body results counter duration acc :
  fold_left loop_body results (counter, duration, acc)
  = (fold_left (λ c r, counter_inc c (ScrapingResult.source r)) results counter,
     fold_left (λ d r,
                  match ScrapingResult.response_time r with
                  | Some rt => histogram_observe d (ScrapingResult.source r) rt
                  | None => d
                  end) results duration,
     (acc ++ map result_dict results)%list).
Proof.
  revert counter duration acc.
  induction results as [|r results IH]; intros counter duration acc; simpl.
  - now rewrite app_nil_r.
  - rewrite IH. now rewrite <- app_assoc.
Qed.

Lemma counter_value_inc c label l :
  counter_value (counter_inc c label) l
  = if bool_decide (label = l) then S (counter_value c l) else counter_value c l.
Proof.
  unfold counter_inc, counter_value at 1.
  case_bool_decide as E.
  - subst. now rewrite lookup_insert_eq.
  - now rewrite lookup_insert_ne.
Qed.

Lemma observations_observe h label v l :
  observations (histogram_observe h label v) l
  = if bool_decide (label = l) then (observations h l ++ [v])%list
    else observations h l.
Proof.
  unfold histogram_observe, observations at 1.
  case_bool_decide as E.
  - subst. now rewrite lookup_insert_eq.
  - now rewrite lookup_insert_ne.
Qed.

Lemma counter_after_loop results counter l :
  counter_value
    (fold_left (λ c r, counter_inc c (ScrapingResult.source r)) results counter) l
  = (counter_value counter l + results_for l results)%nat.
Proof.
  revert counter. unfold results_for.
  induction results as [|r results IH]; intros counter; simpl; [lia|].
  rewrite IH, counter_value_inc.
  case_bool_decide; simpl; lia.
Qed.

Lemma duration_after_loop results duration l :
  observations
    (fold_left (λ d r,
                  match ScrapingResult.response_time r with
                  | Some rt => histogram_observe d (ScrapingResult.source r) rt
                  | None => d
                  end) results duration) l
  = (observations duration l ++ times_for l results)%list.
Proof.
  revert duration. unfold times_for.
  induction results as [|r results IH]; intros duration; simpl.
  - now rewrite app_nil_r.
  - rewrite IH. destruct (ScrapingResult.response_time r) as [rt|].
    + rewrite observations_observe.
      case_bool_decide; simpl; [now rewrite <- app_assoc|reflexivity].
    + now case_bool_decide.
Qed.

(** ** The three paths of the handler *)

Lemma scrape_sources_hit st request env cached :
  CacheManager.get (cache st) (t_get env) (cache_key request) = Some cached →
  scrape_sources st request env
  = (mkState (cache st) (scrape_counter st) (scrape_duration st)
             (S (cache_hits st)) (cache_misses st) (orchestrator_calls st),
     cached).
Proof. intros H. unfold scrape_sources. now rewrite H. Qed.

Lemma scrape_sources_fresh st request env results :
  CacheManager.get (cache st) (t_get env) (cache_key request) = None →
  orchestrator env (ScrapeRequest.query request) (ScrapeRequest.sources request)
  = Returned results →
  scrape_sources st request env
  = (mkState
       (CacheManager.set (cache st) (t_set env) (cache_key request)
                         (fresh_response request env results))
       (fold_left (λ c r, counter_inc c (ScrapingResult.source r))
                  results (scrape_counter st))
       (fold_left (λ d r,
                     match ScrapingResult.response_time r with
                     | Some rt =>
                         histogram_observe d (ScrapingResult.source r) rt
                     | None => d
                     end) results (scrape_duration st))
       (cache_hits st) (S (cache_misses st)) (S (orchestrator_calls st)),
     fresh_response request env results).
Proof.
  intros Hget Horch. unfold scrape_sources, process_results.
  rewrite Hget, Horch, fold_loop_body. reflexivity.
Qed.

Lemma scrape_sources_failed st request env :
  CacheManager.get (cache st) (t_get env) (cache_key request) = None →
  orchestrator env (ScrapeRequest.query request) (ScrapeRequest.sources request)
  = Raised →
  scrape_sources st request env
  = (mkState (cache st) (scrape_counter st) (scrape_duration st)
             (cache_hits st) (S (cache_misses st)) (S (orchestrator_calls st)),
     fallback_response request (t_done env - t_start env)).
Proof.
  intros Hget Horch. unfold scrape_sources. now rewrite Hget, Horch.
Qed.

Lemma post_scrape_valid st request env :
  validate request = true →
  post_scrape st request env
  = ((scrape_sources st request env).1,
     Ok200 (scrape_sources st request env).2).
Proof.
  intros H. unfold post_scrape. rewrite H.
  now destruct (scrape_sources st request env).
Qed.

Lemma post_scrape_ok st request env st' r :
  post_scrape st request env = (st', Ok200 r) →
  validate request = true ∧ scrape_sources st request env = (st', r).
Proof.
  unfold post_scrape. destruct (validate request); [|discriminate].
  destruct (scrape_sources st request env). intros [= <- <-]. now split.
Qed.

(** ** What the cache holds *)

Lemma get_Some_store c now key r :
  CacheManager.get c now key = Some r →
  ∃ e, CacheManager.store c !! key = Some e
       ∧ CacheManager.value e = r
       ∧ (now - CacheManager.created e < CacheManager.ttl e)%Z.
Proof.
  unfold CacheManager.get.
  destruct (CacheManager.store c !! key) as [e|]; [|discriminate].
  destruct (Z.ltb_spec (now - CacheManager.created e) (CacheManager.ttl e));
    [|discriminate].
  intros [= <-]. now exists e.
Qed.

Lemma cache_inv_initial default_ttl : cache_inv (initial default_ttl).
Proof. intros k e H. simpl in H. now rewrite lookup_empty in H. Qed.

Lemma cache_inv_scrape_sources st request env :
  cache_inv st → cache_inv (scrape_sources st request env).1.
Proof.
  intros Hinv.
  destruct (CacheManager.get (cache st) (t_get env) (cache_key request))
    as [cached|] eqn:Hget.
  - rewrite (scrape_sources_hit _ _ _ _ Hget). exact Hinv.
  - destruct (orchestrator env (ScrapeRequest.query request)
                (ScrapeRequest.sources request)) as [results|] eqn:Horch.
    + rewrite (scrape_sources_fresh _ _ _ _ Hget Horch).
      intros k e. simpl.
      destruct (decide (cache_key request = k)) as [<-|Hne].
      * rewrite lookup_insert_eq. intros [= <-]. simpl.
        now exists request, env, results.
      * rewrite lookup_insert_ne by exact Hne. apply Hinv.
    + rewrite (scrape_sources_failed _ _ _ Hget Horch). exact Hinv.
Qed.

Lemma cache_inv_post_scrape st request env :
  cache_inv st → cache_inv (post_scrape st request env).1.
Proof.
  intros Hinv. unfold post_scrape.
  destruct (validate request); [|exact Hinv].
  pose proof (cache_inv_scrape_sources st request env Hinv) as H.
  now destruct (scrape_sources st request env).
Qed.

Lemma reachable_cache_inv st : reachable st → cache_inv st.
Proof.
  induction 1 as [ttl|st request env _ IH].
  - apply cache_inv_initial.
  - now apply cache_inv_post_scrape.
Qed.

(** A response served from the cache of a reachable state was computed by
    the handler for a request with the same cache key. *)
Lemma hit_is_fresh_response st request env cached :
  reachable st →
  CacheManager.get (cache st) (t_get env) (cache_key request) = Some cached →
  ∃ request0 env0 results,
    cache_key request0 = cache_key request
    ∧ cached = fresh_response request0 env0 results.
Proof.
  intros Hr Hget.
  destruct (get_Some_store _ _ _ _ Hget) as (e & He & <- & _).
  destruct (reachable_cache_inv st Hr _ _ He) as (r0 & env0 & rs & Hk & Hv).
  now exists r0, env0, rs.
Qed.

Lemma fresh_response_counts request env results :
  (ScrapeResponse.successful_sources (fresh_response request env results)
   ≤ ScrapeResponse.total_sources (fresh_response request env results))%nat
  ∧ (ScrapeResponse.success (fresh_response request env results) = true
     ↔ (0 < ScrapeResponse.successful_sources
              (fresh_response request env results))%nat).
Proof.
  simpl. split.
  - apply List.filter_length_le.
  - apply Nat.ltb_lt.
Qed.

Lemma fresh_response_not_cached request env results :
  Forall (λ d, ResultDict.cached d = false)
         (ScrapeResponse.results (fresh_response request env results)).
Proof. simpl. apply Forall_map. now apply Forall_forall. Qed.

(** ** The summary fields of a response (C1) *)

(** C1: every response the endpoint returns, in any state the server can
    reach, whether computed afresh, served from the cache or built after a
    failed dispatch, has [successful_sources <= total_sources], and its
    [success] is true exactly when [successful_sources > 0]. *)
Theorem response_counts_consistent st request env st' r :
  reachable st →
  post_scrape st request env = (st', Ok200 r) →
  (ScrapeResponse.successful_sources r ≤ ScrapeResponse.total_sources r)%nat
  ∧ (ScrapeResponse.success r = true
     ↔ (0 < ScrapeResponse.successful_sources r)%nat).
Proof.
  intros Hr Hpost. apply post_scrape_ok in Hpost as [_ Hs].
  destruct (CacheManager.get (cache st) (t_get env) (cache_key request))
    as [cached|] eqn:Hget.
  - rewrite (scrape_sources_hit _ _ _ _ Hget) in Hs.
    injection Hs as _ <-.
    destruct (hit_is_fresh_response _ _ _ _ Hr Hget)
      as (r0 & env0 & rs & _ & ->).
    apply fresh_response_counts.
  - destruct (orchestrator env (ScrapeRequest.query request)
                (ScrapeRequest.sources request)) as [results|] eqn:Horch.
    + rewrite (scrape_sources_fresh _ _ _ _ Hget Horch) in Hs.
      injection Hs as _ <-. apply fresh_response_counts.
    + rewrite (scrape_sources_failed _ _ _ Hget Horch) in Hs.
      injection Hs as _ <-. simpl. split; [lia|].
      split; [discriminate|lia].
Qed.

Lemma response_counts_consistent_witness :
  (ScrapeResponse.successful_sources response_Hello
   ≤ ScrapeResponse.total_sources response_Hello)%nat
  ∧ (ScrapeResponse.success response_Hello = true
     ↔ (0 < ScrapeResponse.successful_sources response_Hello)%nat).
Proof.
  apply (response_counts_consistent st_after_Hello request_hello env_later
           (post_scrape st_after_Hello request_hello env_later).1
           response_Hello).
  - apply reachable_step, reachable_initial.
  - vm_compute. reflexivity.
Defined.

(** ** A failing dispatch (C3) *)

(** C3: when the cache has no live entry for the request and the
    orchestrator (its creation or [scrape_all_sources]) raises, the endpoint
    answers with a response, not an error: [success] false, no results, both
    counts 0, and the elapsed time as [execution_time]. *)
Theorem orchestrator_failure_degrades st request env :
  validate request = true →
  CacheManager.get (cache st) (t_get env) (cache_key request) = None →
  orchestrator env (ScrapeRequest.query request) (ScrapeRequest.sources request)
  = Raised →
  (post_scrape st request env).2
  = Ok200 (ScrapeResponse.mk false (ScrapeRequest.query request) [] 0 0
             (t_done env - t_start env)).
Proof.
  intros Hv Hget Horch.
  rewrite (post_scrape_valid _ _ _ Hv).
  now rewrite (scrape_sources_failed _ _ _ Hget Horch).
Qed.

Lemma orchestrator_failure_degrades_witness :
  (post_scrape (initial 3600) request_Hello env_raising).2
  = Ok200 (ScrapeResponse.mk false "Hello" [] 0 0 30).
Proof.
  apply (orchestrator_failure_degrades (initial 3600) request_Hello env_raising);
    reflexivity.
Defined.

(** ** Hit and miss counters (C5) *)

(** C5: a request that passes validation increments exactly one of the two
    counters by one: the hit counter when the lookup answers a stored
    response, the miss counter otherwise; the other counter is unchanged. *)
Theorem hit_xor_miss_counted st request env :
  validate request = true →
  (is_Some (CacheManager.get (cache st) (t_get env) (cache_key request))
   ∧ cache_hits (post_scrape st request env).1 = S (cache_hits st)
   ∧ cache_misses (post_scrape st request env).1 = cache_misses st)
  ∨ (CacheManager.get (cache st) (t_get env) (cache_key request) = None
     ∧ cache_hits (post_scrape st request env).1 = cache_hits st
     ∧ cache_misses (post_scrape st request env).1 = S (cache_misses st)).
Proof.
  intros Hv. rewrite (post_scrape_valid _ _ _ Hv). simpl.
  destruct (CacheManager.get (cache st) (t_get env) (cache_key request))
    as [cached|] eqn:Hget.
  - left. rewrite (scrape_sources_hit _ _ _ _ Hget). simpl. eauto.
  - right.
    destruct (orchestrator env (ScrapeRequest.query request)
                (ScrapeRequest.sources request)) as [results|] eqn:Horch.
    + now rewrite (scrape_sources_fresh _ _ _ _ Hget Horch).
    + now rewrite (scrape_sources_failed _ _ _ Hget Horch).
Qed.

Lemma hit_xor_miss_counted_witness :
  (is_Some (CacheManager.get (cache st_after_Hello) (t_get env_later)
              (cache_key request_Hello))
   ∧ cache_hits (post_scrape st_after_Hello request_Hello env_later).1
     = S (cache_hits st_after_Hello)
   ∧ cache_misses (post_scrape st_after_Hello request_Hello env_later).1
     = cache_misses st_after_Hello)
  ∨ (CacheManager.get (cache st_after_Hello) (t_get env_later)
       (cache_key request_Hello) = None
     ∧ cache_hits (post_scrape st_after_Hello request_Hello env_later).1
       = cache_hits st_after_Hello
     ∧ cache_misses (post_scrape st_after_Hello request_Hello env_later).1
       = S (cache_misses st_after_Hello)).
Proof.
  apply (hit_xor_miss_counted st_after_Hello request_Hello env_later).
  reflexivity.
Defined.

(** ** Per-source metrics (C6) *)

(** C6: on a cache miss whose orchestrator call returns [results], the
    request counter of every source grows by the number of results of that
    source, successful or not, and the latency histogram of every source
    receives exactly the response times that are present among the results
    of that source. *)
Theorem fresh_request_updates_metrics st request env results label :
  validate request = true →
  CacheManager.get (cache st) (t_get env) (cache_key request) = None →
  orchestrator env (ScrapeRequest.query request) (ScrapeRequest.sources request)
  = Returned results →
  counter_value (scrape_counter (post_scrape st request env).1) label
  = (counter_value (scrape_counter st) label + results_for label results)%nat
  ∧ observations (scrape_duration (post_scrape st request env).1) label
    = (observations (scrape_duration st) label
       ++ times_for label results)%list.
Proof.
  intros Hv Hget Horch.
  rewrite (post_scrape_valid _ _ _ Hv).
  rewrite (scrape_sources_fresh _ _ _ _ Hget Horch). simpl.
  split; [apply counter_after_loop|apply duration_after_loop].
Qed.

Lemma fresh_request_updates_metrics_witness :
  counter_value (scrape_counter st_after_Hello) "pubmed"
  = (counter_value (scrape_counter (initial 3600)) "pubmed"
     + results_for "pubmed" [wikipedia_ok; pubmed_failed])%nat
  ∧ observations (scrape_duration st_after_Hello) "pubmed"
    = (observations (scrape_duration (initial 3600)) "pubmed"
       ++ times_for "pubmed" [wikipedia_ok; pubmed_failed])%list.
Proof.
  apply (fresh_request_updates_metrics (initial 3600) request_Hello
           env_returning [wikipedia_ok; pubmed_failed] "pubmed");
    reflexivity.
Defined.

Example metrics_after_Hello :
  counter_value (scrape_counter st_after_Hello) "wikipedia" = 1%nat
  ∧ counter_value (scrape_counter st_after_Hello) "pubmed" = 1%nat
  ∧ observations (scrape_duration st_after_Hello) "wikipedia" = [12%Z]
  ∧ observations (scrape_duration st_after_Hello) "pubmed" = [].
Proof. repeat split; reflexivity. Qed.

(** ** The [cached] flag (C7) *)

(** C7, as stated, fails: the second of two identical requests is served
    from the cache (the lookup answers the stored response, the hit counter
    moves, the orchestrator is not called), and both records of the response
    still carry [cached = false]. *)
Lemma cache_hit_keeps_cached_false :
  CacheManager.get (cache st_after_Hello) (t_get env_later)
    (cache_key request_Hello) = Some response_Hello
  ∧ (post_scrape st_after_Hello request_Hello env_later).2
    = Ok200 response_Hello
  ∧ cache_hits (post_scrape st_after_Hello request_Hello env_later).1 = 1%nat
  ∧ orchestrator_calls (post_scrape st_after_Hello request_Hello env_later).1
    = orchestrator_calls st_after_Hello
  ∧ map ResultDict.cached (ScrapeResponse.results response_Hello)
    = [false; false].
Proof. repeat split; reflexivity. Qed.

(** C7, amended: every record in the results of a response carries
    [cached = false], in a freshly computed response and in a response
    served from the cache alike, the latter being returned as it was
    stored. *)
Theorem results_never_marked_cached st request env st' r :
  reachable st →
  post_scrape st request env = (st', Ok200 r) →
  Forall (λ d, ResultDict.cached d = false) (ScrapeResponse.results r)
  ∧ ∀ stored,
      CacheManager.get (cache st) (t_get env) (cache_key request) = Some stored →
      r = stored.
Proof.
  intros Hr Hpost. apply post_scrape_ok in Hpost as [_ Hs].
  destruct (CacheManager.get (cache st) (t_get env) (cache_key request))
    as [cached|] eqn:Hget.
  - rewrite (scrape_sources_hit _ _ _ _ Hget) in Hs.
    injection Hs as _ <-. split; [|now intros ? [= <-]].
    destruct (hit_is_fresh_response _ _ _ _ Hr Hget)
      as (r0 & env0 & rs & _ & ->).
    apply fresh_response_not_cached.
  - split; [|discriminate].
    destruct (orchestrator env (ScrapeRequest.query request)
                (ScrapeRequest.sources request)) as [results|] eqn:Horch.
    + rewrite (scrape_sources_fresh _ _ _ _ Hget Horch) in Hs.
      injection Hs as _ <-. apply fresh_response_not_cached.
    + rewrite (scrape_sources_failed _ _ _ Hget Horch) in Hs.
      injection Hs as _ <-. constructor.
Qed.

Lemma results_never_marked_cached_witness :
  Forall (λ d, ResultDict.cached d = false)
         (ScrapeResponse.results response_Hello)
  ∧ ∀ stored,
      CacheManager.get (cache st_after_Hello) (t_get env_later)
        (cache_key request_Hello) = Some stored →
      response_Hello = stored.
Proof.
  apply (results_never_marked_cached st_after_Hello request_Hello env_later
           (post_scrape st_after_Hello request_Hello env_later).1
           response_Hello).
  - apply reachable_step, reachable_initial.
  - vm_compute. reflexivity.
Defined.

(** ** The echoed query (C8) *)

(** C8, as stated, fails on the cache-hit path: after a request for
    ["Hello"], a request for ["hello"] has the same cache key, is served
    from the cache, and its response carries the query ["Hello"]. *)
Lemma cache_hit_echoes_first_query :
  cache_key request_hello = cache_key request_Hello
  ∧ (post_scrape st_after_Hello request_hello env_later).2
    = Ok200 response_Hello
  ∧ ScrapeResponse.query response_Hello = "Hello"
  ∧ ScrapeRequest.query request_hello = "hello"
  ∧ ScrapeResponse.query response_Hello ≠ ScrapeRequest.query request_hello.
Proof. repeat split; try reflexivity. vm_compute. discriminate. Qed.

(** C8, amended: on a cache miss (fresh computation or fallback) the query
    of the response is the query string of the request; on a cache hit the
    response is the stored one, and its query is the query string of a
    request with the same cache key as the request being answered. *)
Theorem response_query_echo st request env st' r :
  reachable st →
  post_scrape st request env = (st', Ok200 r) →
  (CacheManager.get (cache st) (t_get env) (cache_key request) = None →
   ScrapeResponse.query r = ScrapeRequest.query request)
  ∧ (∀ stored,
       CacheManager.get (cache st) (t_get env) (cache_key request)
       = Some stored →
       r = stored
       ∧ ∃ sources,
           cache_key (ScrapeRequest.mk (ScrapeResponse.query r) sources)
           = cache_key request).
Proof.
  intros Hr Hpost. apply post_scrape_ok in Hpost as [_ Hs].
  destruct (CacheManager.get (cache st) (t_get env) (cache_key request))
    as [cached|] eqn:Hget.
  - split; [discriminate|]. intros stored [= <-].
    rewrite (scrape_sources_hit _ _ _ _ Hget) in Hs.
    injection Hs as _ <-. split; [reflexivity|].
    destruct (hit_is_fresh_response _ _ _ _ Hr Hget)
      as ([q0 s0] & env0 & rs & Hk & ->).
    now exists s0.
  - split; [intros _|discriminate].
    destruct (orchestrator env (ScrapeRequest.query request)
                (ScrapeRequest.sources request)) as [results|] eqn:Horch.
    + rewrite (scrape_sources_fresh _ _ _ _ Hget Horch) in Hs.
      now injection Hs as _ <-.
    + rewrite (scrape_sources_failed _ _ _ Hget Horch) in Hs.
      now injection Hs as _ <-.
Qed.

Lemma response_query_echo_witness :
  (CacheManager.get (cache st_after_Hello) (t_get env_later)
     (cache_key request_hello) = None →
   ScrapeResponse.query response_Hello = ScrapeRequest.query request_hello)
  ∧ (∀ stored,
       CacheManager.get (cache st_after_Hello) (t_get env_later)
         (cache_key request_hello) = Some stored →
       response_Hello = stored
       ∧ ∃ sources,
           cache_key
             (ScrapeRequest.mk (ScrapeResponse.query response_Hello) sources)
           = cache_key request_hello).
Proof.
  apply (response_query_echo st_after_Hello request_hello env_later
           (post_scrape st_after_Hello request_hello env_later).1
           response_Hello).
  - apply reachable_step, reachable_initial.
  - vm_compute. reflexivity.
Defined.

(** ** Validation (C9) *)

Lemma validate_false_iff request :
  validate request = false
  ↔ String.length (ScrapeRequest.query request) = 0%nat
    ∨ (500 < String.length (ScrapeRequest.query request))%nat.
Proof.
  unfold validate. rewrite andb_false_iff, Nat.leb_gt, Nat.leb_gt. lia.
Qed.

(** C9: a request whose query is empty or longer than 500 characters is
    rejected at the boundary and the handler does not run: the whole state,
    that is the cache, the hit and miss counters, the per-source counters
    and histograms and the number of orchestrator calls, is unchanged. *)
Theorem invalid_query_rejected st request env :
  String.length (ScrapeRequest.query request) = 0%nat
  ∨ (500 < String.length (ScrapeRequest.query request))%nat →
  post_scrape st request env = (st, Unprocessable422).
Proof.
  intros H. apply validate_false_iff in H.
  unfold post_scrape. now rewrite H.
Qed.

Lemma invalid_query_rejected_witness :
  post_scrape st_after_Hello request_empty env_later
  = (st_after_Hello, Unprocessable422).
Proof.
  apply (invalid_query_rejected st_after_Hello request_empty env_later).
  left. reflexivity.
Defined.

(** ** The cache on the failure path (C10) *)

Lemma get_None_later c now later key :
  CacheManager.get c now key = None →
  (now ≤ later)%Z →
  CacheManager.get c later key = None.
Proof.
  unfold CacheManager.get.
  destruct (CacheManager.store c !! key) as [e|]; [|reflexivity].
  destruct (Z.ltb_spec (now - CacheManager.created e) (CacheManager.ttl e));
    [discriminate|].
  intros _ Hle.
  destruct (Z.ltb_spec (later - CacheManager.created e) (CacheManager.ttl e));
    [lia|reflexivity].
Qed.

(** The handler writes the cache on one path only: a miss whose orchestrator
    call returned; what it writes is the response it returns. *)
Lemma cache_written_on_fresh_path_only st request env :
  cache (post_scrape st request env).1 = cache st
  ∨ ∃ results,
      CacheManager.get (cache st) (t_get env) (cache_key request) = None
      ∧ orchestrator env (ScrapeRequest.query request)
          (ScrapeRequest.sources request) = Returned results
      ∧ (post_scrape st request env).2
        = Ok200 (fresh_response request env results)
      ∧ cache (post_scrape st request env).1
        = CacheManager.set (cache st) (t_set env) (cache_key request)
            (fresh_response request env results).
Proof.
  destruct (validate request) eqn:Hv.
  - rewrite (post_scrape_valid _ _ _ Hv). simpl.
    destruct (CacheManager.get (cache st) (t_get env) (cache_key request))
      as [cached|] eqn:Hget.
    + left. now rewrite (scrape_sources_hit _ _ _ _ Hget).
    + destruct (orchestrator env (ScrapeRequest.query request)
                  (ScrapeRequest.sources request)) as [results|] eqn:Horch.
      * right. exists results.
        now rewrite (scrape_sources_fresh _ _ _ _ Hget Horch).
      * left. now rewrite (scrape_sources_failed _ _ _ Hget Horch).
  - left. unfold post_scrape. now rewrite Hv.
Qed.

(** A validated request that misses the cache reaches the orchestrator. *)
Lemma miss_reaches_orchestrator st request env :
  validate request = true →
  CacheManager.get (cache st) (t_get env) (cache_key request) = None →
  orchestrator_calls (post_scrape st request env).1
  = S (orchestrator_calls st).
Proof.
  intros Hv Hget. rewrite (post_scrape_valid _ _ _ Hv). simpl.
  destruct (orchestrator env (ScrapeRequest.query request)
              (ScrapeRequest.sources request)) as [results|] eqn:Horch.
  - now rewrite (scrape_sources_fresh _ _ _ results Hget Horch).
  - now rewrite (scrape_sources_failed _ _ _ Hget Horch).
Qed.

(** C10: when the dispatch fails, the fallback response is returned and the
    cache is left as it was; the same request, sent again at a later time,
    misses the cache again and reaches the orchestrator again.  In general a
    call changes the cache only by storing the response it aggregated from a
    returned result sequence. *)
Theorem fallback_not_cached st request env env2 :
  validate request = true →
  CacheManager.get (cache st) (t_get env) (cache_key request) = None →
  orchestrator env (ScrapeRequest.query request) (ScrapeRequest.sources request)
  = Raised →
  (t_get env ≤ t_get env2)%Z →
  (post_scrape st request env).2
  = Ok200 (fallback_response request (t_done env - t_start env))
  ∧ cache (post_scrape st request env).1 = cache st
  ∧ CacheManager.get (cache (post_scrape st request env).1) (t_get env2)
      (cache_key request) = None
  ∧ orchestrator_calls
      (post_scrape (post_scrape st request env).1 request env2).1
    = S (orchestrator_calls (post_scrape st request env).1)
  ∧ ∀ st0 request0 env0,
      cache (post_scrape st0 request0 env0).1 ≠ cache st0 →
      ∃ results,
        orchestrator env0 (ScrapeRequest.query request0)
          (ScrapeRequest.sources request0) = Returned results
        ∧ (post_scrape st0 request0 env0).2
          = Ok200 (fresh_response request0 env0 results)
        ∧ cache (post_scrape st0 request0 env0).1
          = CacheManager.set (cache st0) (t_set env0) (cache_key request0)
              (fresh_response request0 env0 results).
Proof.
  intros Hv Hget Horch Hle.
  rewrite (post_scrape_valid _ _ _ Hv).
  rewrite (scrape_sources_failed _ _ _ Hget Horch). simpl.
  pose proof (get_None_later _ _ _ _ Hget Hle) as Hget2.
  repeat split; try assumption.
  - now apply miss_reaches_orchestrator.
  - intros st0 request0 env0 Hne.
    destruct (cache_written_on_fresh_path_only st0 request0 env0)
      as [Heq|(results & _ & H1 & H2 & H3)]; [contradiction|].
    now exists results.
Qed.

Lemma fallback_not_cached_witness :
  (post_scrape (initial 3600) request_Hello env_raising).2
  = Ok200 (fallback_response request_Hello (t_done env_raising - t_start env_raising))
  ∧ cache (post_scrape (initial 3600) request_Hello env_raising).1
    = cache (initial 3600)
  ∧ CacheManager.get
      (cache (post_scrape (initial 3600) request_Hello env_raising).1)
      (t_get env_later) (cache_key request_Hello) = None
  ∧ orchestrator_calls
      (post_scrape (post_scrape (initial 3600) request_Hello env_raising).1
         request_Hello env_later).1
    = S (orchestrator_calls
           (post_scrape (initial 3600) request_Hello env_raising).1).
Proof.
  pose proof (fallback_not_cached (initial 3600) request_Hello env_raising
                env_later eq_refl eq_refl eq_refl) as H.
  destruct H as (H1 & H2 & H3 & H4 & _); [vm_compute; discriminate|].
  repeat split; assumption.
Defined.

(** ** Repeating a request (C4) *)

(** C4, as stated, fails: the first of two identical requests ends on the
    failure path, nothing being stored, so nothing can expire in between;
    the second request reaches the orchestrator again and its response
    differs from the first. *)
Lemma retry_after_failure_dispatches_again :
  validate request_Hello = true
  ∧ CacheManager.not_expired (cache st_after_failure) (t_get env_later)
      (cache_key request_Hello)
  ∧ (post_scrape (initial 3600) request_Hello env_raising).2
    = Ok200 (ScrapeResponse.mk false "Hello" [] 0 0 30)
  ∧ (post_scrape st_after_failure request_Hello env_later).2
    = Ok200 (ScrapeResponse.mk true "Hello"
               (ScrapeResponse.results response_Hello) 2 1 40)
  ∧ (post_scrape st_after_failure request_Hello env_later).2
    ≠ (post_scrape (initial 3600) request_Hello env_raising).2
  ∧ orchestrator_calls st_after_failure = 1%nat
  ∧ orchestrator_calls
      (post_scrape st_after_failure request_Hello env_later).1 = 2%nat.
Proof.
  split; [reflexivity|]. split.
  { intros e He. vm_compute in He. discriminate. }
  split; [reflexivity|]. split; [reflexivity|]. split.
  { vm_compute. discriminate. }
  split; reflexivity.
Qed.

(** C4, amended: when the first of two identical requests is answered from
    the cache or by a fresh computation (its dispatch does not fail) and the
    entry of its key has not expired when the second one looks it up, the
    second response is identical to the first, and the second request
    neither reaches the orchestrator nor touches the per-source metrics or
    the cache. *)
Theorem repeated_request_served_from_cache st request env1 env2 :
  validate request = true →
  (CacheManager.get (cache st) (t_get env1) (cache_key request) = None →
   orchestrator env1 (ScrapeRequest.query request)
     (ScrapeRequest.sources request) ≠ Raised) →
  CacheManager.not_expired (cache (post_scrape st request env1).1)
    (t_get env2) (cache_key request) →
  (post_scrape (post_scrape st request env1).1 request env2).2
  = (post_scrape st request env1).2
  ∧ orchestrator_calls
      (post_scrape (post_scrape st request env1).1 request env2).1
    = orchestrator_calls (post_scrape st request env1).1
  ∧ scrape_counter
      (post_scrape (post_scrape st request env1).1 request env2).1
    = scrape_counter (post_scrape st request env1).1
  ∧ scrape_duration
      (post_scrape (post_scrape st request env1).1 request env2).1
    = scrape_duration (post_scrape st request env1).1
  ∧ cache (post_scrape (post_scrape st request env1).1 request env2).1
    = cache (post_scrape st request env1).1.
Proof.
  intros Hv Hok Hlive.
  assert (∃ r, (post_scrape st request env1).2 = Ok200 r
               ∧ CacheManager.get (cache (post_scrape st request env1).1)
                   (t_get env2) (cache_key request) = Some r)
    as (r & Hr & Hget2).
  { rewrite (post_scrape_valid _ _ _ Hv) in *. simpl in *.
    destruct (CacheManager.get (cache st) (t_get env1) (cache_key request))
      as [cached|] eqn:Hget.
    - rewrite (scrape_sources_hit _ _ _ _ Hget) in *. simpl in *.
      exists cached. split; [reflexivity|].
      destruct (get_Some_store _ _ _ _ Hget) as (e & He & <- & _).
      unfold CacheManager.get. rewrite He.
      specialize (Hlive e He). apply Z.ltb_lt in Hlive. now rewrite Hlive.
    - destruct (orchestrator env1 (ScrapeRequest.query request)
                  (ScrapeRequest.sources request)) as [results|] eqn:Horch;
        [|now destruct (Hok eq_refl)].
      rewrite (scrape_sources_fresh _ _ _ _ Hget Horch) in *. simpl in *.
      exists (fresh_response request env1 results). split; [reflexivity|].
      unfold CacheManager.get. simpl. rewrite lookup_insert_eq. simpl.
      specialize (Hlive _ (lookup_insert_eq _ _ _)). simpl in Hlive.
      apply Z.ltb_lt in Hlive. now rewrite Hlive. }
  rewrite (post_scrape_valid (post_scrape st request env1).1 _ _ Hv).
  rewrite (scrape_sources_hit _ _ _ _ Hget2). simpl.
  now rewrite Hr.
Qed.

Lemma repeated_request_served_from_cache_witness :
  (post_scrape st_after_Hello request_Hello env_later).2
  = (post_scrape (initial 3600) request_Hello env_returning).2
  ∧ orchestrator_calls (post_scrape st_after_Hello request_Hello env_later).1
    = orchestrator_calls st_after_Hello.
Proof.
  pose proof (repeated_request_served_from_cache (initial 3600) request_Hello
                env_returning env_later eq_refl) as H.
  destruct H as (H1 & H2 & _).
  - intros _. vm_compute. discriminate.
  - intros e He. vm_compute in He. injection He as <-. vm_compute. reflexivity.
  - split; assumption.
Defined.

(** * Further properties of the code *)

(** ** The response of a fresh computation *)

(** On a cache miss whose orchestrator call returns [results], the response
    lists one record per result, in the order of the sequence: the record at
    position [i] copies source, success, data and error of the result at
    position [i], carries its response time as [execution_time], and
    [total_sources] is the length of the sequence. *)
Theorem fresh_results_mirror_orchestrator st request env results st' r :
  post_scrape st request env = (st', Ok200 r) →
  CacheManager.get (cache st) (t_get env) (cache_key request) = None →
  orchestrator env (ScrapeRequest.query request) (ScrapeRequest.sources request)
  = Returned results →
  ScrapeResponse.total_sources r = length results
  ∧ length (ScrapeResponse.results r) = length results
  ∧ ∀ i res, results !! i = Some res →
      ∃ d, ScrapeResponse.results r !! i = Some d
           ∧ ResultDict.source d = ScrapingResult.source res
           ∧ ResultDict.success d = ScrapingResult.success res
           ∧ ResultDict.data d = ScrapingResult.data res
           ∧ ResultDict.error d = ScrapingResult.error res
           ∧ ResultDict.execution_time d = ScrapingResult.response_time res
           ∧ ResultDict.cached d = false.
Proof.
  intros Hpost Hget Horch. apply post_scrape_ok in Hpost as [_ Hs].
  rewrite (scrape_sources_fresh _ _ _ _ Hget Horch) in Hs.
  injection Hs as _ <-. simpl.
  split; [reflexivity|]. split; [apply length_map|].
  intros i res Hi. exists (result_dict res).
  rewrite list_lookup_fmap, Hi. repeat split; reflexivity.
Qed.

Lemma fresh_results_mirror_orchestrator_witness :
  ScrapeResponse.total_sources response_Hello = 2%nat
  ∧ length (ScrapeResponse.results response_Hello) = 2%nat.
Proof.
  pose proof (fresh_results_mirror_orchestrator (initial 3600) request_Hello
                env_returning [wikipedia_ok; pubmed_failed]
                st_after_Hello response_Hello) as H.
  destruct H as (H1 & H2 & _); [vm_compute; reflexivity|reflexivity..|].
  split; assumption.
Defined.

Lemma filter_length_all {A} (f : A → bool) (l : list A) :
  length (List.filter f l) = length l ↔ Forall (λ x, f x = true) l.
Proof.
  induction l as [|x l IH]; simpl.
  - split; [constructor|reflexivity].
  - pose proof (List.filter_length_le f l) as Hle.
    destruct (f x) eqn:E; simpl.
    + rewrite Forall_cons. split.
      * intros H. split; [exact E|]. apply IH. lia.
      * intros [_ H]. f_equal. now apply IH.
    + split; [lia|]. intros H. apply Forall_cons in H as [H _]. congruence.
Qed.

Lemma filter_length_pos {A} (f : A → bool) (l : list A) :
  (0 < length (List.filter f l))%nat ↔ ∃ x, x ∈ l ∧ f x = true.
Proof.
  induction l as [|x l IH]; simpl.
  - split; [lia|]. intros (x & Hx & _). now apply elem_of_nil in Hx.
  - destruct (f x) eqn:E; simpl.
    + split; [|lia]. intros _. exists x. split; [left|exact E].
    + rewrite IH. split.
      * intros (y & Hy & Hfy). exists y. split; [now right|exact Hfy].
      * intros (y & Hy & Hfy). apply elem_of_cons in Hy as [->|Hy];
          [congruence|]. now exists y.
Qed.

(** On a cache miss whose orchestrator call returns [results], [success] is
    true exactly when some result succeeded, [successful_sources] equals
    [total_sources] exactly when every result succeeded, and it is 0
    exactly when none did. *)
Theorem fresh_success_summary st request env results st' r :
  post_scrape st request env = (st', Ok200 r) →
  CacheManager.get (cache st) (t_get env) (cache_key request) = None →
  orchestrator env (ScrapeRequest.query request) (ScrapeRequest.sources request)
  = Returned results →
  (ScrapeResponse.success r = true
   ↔ ∃ res, res ∈ results ∧ ScrapingResult.success res = true)
  ∧ (ScrapeResponse.successful_sources r = ScrapeResponse.total_sources r
     ↔ Forall (λ res, ScrapingResult.success res = true) results)
  ∧ (ScrapeResponse.successful_sources r = 0%nat
     ↔ Forall (λ res, ScrapingResult.success res = false) results).
Proof.
  intros Hpost Hget Horch. apply post_scrape_ok in Hpost as [_ Hs].
  rewrite (scrape_sources_fresh _ _ _ _ Hget Horch) in Hs.
  injection Hs as _ <-. simpl.
  split; [|split].
  - rewrite Nat.ltb_lt. apply filter_length_pos.
  - apply filter_length_all.
  - pose proof (filter_length_pos ScrapingResult.success results) as Hpos.
    rewrite Forall_forall. split.
    + intros H0 res Hres. destruct (ScrapingResult.success res) eqn:E;
        [|reflexivity].
      assert (0 < length (List.filter ScrapingResult.success results))%nat
        by (apply Hpos; now exists res). lia.
    + intros Hall.
      destruct (length (List.filter ScrapingResult.success results)) eqn:E;
        [reflexivity|].
      destruct (proj1 Hpos ltac:(lia)) as (res & Hres & Ht).
      rewrite (Hall res Hres) in Ht. discriminate.
Qed.

Lemma fresh_success_summary_witness :
  ScrapeResponse.success response_Hello = true
  ↔ ∃ res, res ∈ [wikipedia_ok; pubmed_failed]
           ∧ ScrapingResult.success res = true.
Proof.
  pose proof (fresh_success_summary (initial 3600) request_Hello
                env_returning [wikipedia_ok; pubmed_failed]
                st_after_Hello response_Hello) as H.
  destruct H as (H1 & _); [vm_compute; reflexivity|reflexivity..|].
  exact H1.
Defined.

(** ** What one call does to the state *)

(** The state after a call, by cases: a rejected request and a cache hit
    leave everything but the hit counter alone, a failed dispatch moves the
    miss counter and the number of orchestrator calls, and a fresh
    computation also runs the loop over the results and writes the cache. *)
Lemma post_scrape_cases st request env :
  (validate request = false ∧ (post_scrape st request env).1 = st)
  ∨ (validate request = true
     ∧ is_Some (CacheManager.get (cache st) (t_get env) (cache_key request))
     ∧ (post_scrape st request env).1
       = mkState (cache st) (scrape_counter st) (scrape_duration st)
                 (S (cache_hits st)) (cache_misses st) (orchestrator_calls st))
  ∨ (validate request = true
     ∧ CacheManager.get (cache st) (t_get env) (cache_key request) = None
     ∧ orchestrator env (ScrapeRequest.query request)
         (ScrapeRequest.sources request) = Raised
     ∧ (post_scrape st request env).1
       = mkState (cache st) (scrape_counter st) (scrape_duration st)
                 (cache_hits st) (S (cache_misses st))
                 (S (orchestrator_calls st)))
  ∨ (∃ results,
       validate request = true
       ∧ CacheManager.get (cache st) (t_get env) (cache_key request) = None
       ∧ orchestrator env (ScrapeRequest.query request)
           (ScrapeRequest.sources request) = Returned results
       ∧ (post_scrape st request env).1
         = (scrape_sources st request env).1
       ∧ scrape_sources st request env
         = (mkState
              (CacheManager.set (cache st) (t_set env) (cache_key request)
                 (fresh_response request env results))
              (fold_left (λ c r, counter_inc c (ScrapingResult.source r))
                 results (scrape_counter st))
              (fold_left
                 (λ d r,
                    match ScrapingResult.response_time r with
                    | Some rt =>
                        histogram_observe d (ScrapingResult.source r) rt
                    | None => d
                    end) results (scrape_duration st))
              (cache_hits st) (S (cache_misses st))
              (S (orchestrator_calls st)),
            fresh_response request env results)).
Proof.
  destruct (validate request) eqn:Hv.
  - right. rewrite (post_scrape_valid _ _ _ Hv). simpl.
    destruct (CacheManager.get (cache st) (t_get env) (cache_key request))
      as [cached|] eqn:Hget.
    + left. rewrite (scrape_sources_hit _ _ _ _ Hget). simpl. eauto.
    + right.
      destruct (orchestrator env (ScrapeRequest.query request)
                  (ScrapeRequest.sources request)) as [results|] eqn:Horch.
      * right. exists results.
        now rewrite (scrape_sources_fresh _ _ _ _ Hget Horch).
      * left. now rewrite (scrape_sources_failed _ _ _ Hget Horch).
  - left. unfold post_scrape. now rewrite Hv.
Qed.

Lemma times_for_length label results :
  (length (times_for label results) ≤ results_for label results)%nat.
Proof.
  unfold times_for, results_for.
  induction results as [|r results IH]; cbn; [lia|].
  case_bool_decide; cbn.
  - destruct (ScrapingResult.response_time r); cbn; lia.
  - exact IH.
Qed.

(** In every state the server can reach, the number of orchestrator calls
    equals the miss counter: each miss of a validated request reaches the
    orchestrator once, and nothing else does. *)
Theorem misses_equal_orchestrator_calls st :
  reachable st → orchestrator_calls st = cache_misses st.
Proof.
  induction 1 as [ttl|st request env _ IH]; [reflexivity|].
  destruct (post_scrape_cases st request env)
    as [[_ E]|[(_ & _ & E)|[(_ & _ & _ & E)|(rs & _ & _ & _ & E & E')]]];
    rewrite E; try rewrite E'; simpl; congruence.
Qed.

Lemma misses_equal_orchestrator_calls_witness :
  orchestrator_calls st_after_Hello = cache_misses st_after_Hello.
Proof.
  apply (misses_equal_orchestrator_calls st_after_Hello).
  apply reachable_step, reachable_initial.
Defined.

(** In every state the server can reach and for every source, the latency
    histogram holds at most as many observations as the request counter
    counts. *)
Theorem histogram_bounded_by_counter st label :
  reachable st →
  (length (observations (scrape_duration st) label)
   ≤ counter_value (scrape_counter st) label)%nat.
Proof.
  induction 1 as [ttl|st request env _ IH].
  { unfold observations, counter_value. simpl. now rewrite !lookup_empty. }
  destruct (post_scrape_cases st request env)
    as [[_ E]|[(_ & _ & E)|[(_ & _ & _ & E)|(rs & _ & _ & _ & E & E')]]];
    rewrite E; try rewrite E'; simpl; try exact IH.
  rewrite counter_after_loop, duration_after_loop, length_app.
  pose proof (times_for_length label rs). lia.
Qed.

Lemma histogram_bounded_by_counter_witness :
  (length (observations (scrape_duration st_after_Hello) "pubmed")
   ≤ counter_value (scrape_counter st_after_Hello) "pubmed")%nat.
Proof.
  apply (histogram_bounded_by_counter st_after_Hello "pubmed").
  apply reachable_step, reachable_initial.
Defined.

(** No call ever lowers a metric: the hit counter, the miss counter and the
    request counter of every source do not decrease, and the observations of
    every source are kept, new ones being added at the end. *)
Theorem metrics_monotone st request env label :
  (cache_hits st ≤ cache_hits (post_scrape st request env).1)%nat
  ∧ (cache_misses st ≤ cache_misses (post_scrape st request env).1)%nat
  ∧ (counter_value (scrape_counter st) label
     ≤ counter_value (scrape_counter (post_scrape st request env).1) label)%nat
  ∧ observations (scrape_duration st) label
    `prefix_of`
    observations (scrape_duration (post_scrape st request env).1) label.
Proof.
  destruct (post_scrape_cases st request env)
    as [[_ E]|[(_ & _ & E)|[(_ & _ & _ & E)|(rs & _ & _ & _ & E & E')]]];
    rewrite E; try rewrite E'; simpl;
    try (repeat split; (lia || reflexivity)).
  rewrite counter_after_loop, duration_after_loop.
  repeat split; try lia. now apply prefix_app_r.
Qed.

(** The per-source metrics move only on a fresh computation with at least
    one result: a rejected request, a cache hit, a failed dispatch and an
    empty result sequence leave the request counters and the histograms as
    they were. *)
Theorem per_source_metrics_only_when_results st request env :
  scrape_counter (post_scrape st request env).1 ≠ scrape_counter st
  ∨ scrape_duration (post_scrape st request env).1 ≠ scrape_duration st →
  validate request = true
  ∧ CacheManager.get (cache st) (t_get env) (cache_key request) = None
  ∧ ∃ res results,
      orchestrator env (ScrapeRequest.query request)
        (ScrapeRequest.sources request) = Returned (res :: results).
Proof.
  intros Hne.
  destruct (post_scrape_cases st request env)
    as [[_ E]|[(_ & _ & E)|[(_ & _ & _ & E)|(rs & Hv & Hg & Ho & E & E')]]];
    try (rewrite E in Hne; simpl in Hne; now destruct Hne).
  rewrite E, E' in Hne. simpl in Hne.
  destruct rs as [|res rs]; [simpl in Hne; now destruct Hne|].
  split; [exact Hv|]. split; [exact Hg|]. now exists res, rs.
Qed.

Lemma per_source_metrics_only_when_results_witness :
  validate request_Hello = true
  ∧ CacheManager.get (cache (initial 3600)) (t_get env_returning)
      (cache_key request_Hello) = None
  ∧ ∃ res results,
      orchestrator env_returning (ScrapeRequest.query request_Hello)
        (ScrapeRequest.sources request_Hello) = Returned (res :: results).
Proof.
  apply (per_source_metrics_only_when_results (initial 3600) request_Hello
           env_returning).
  left. vm_compute. discriminate.
Defined.

(** ** Responses without a success *)

(** A result sequence without a single success, the empty sequence
    included, still gives a stored response: [success] is false,
    [successful_sources] is 0, and until the TTL of the adapter has elapsed
    a lookup of the key answers that response. *)
Theorem unsuccessful_response_is_cached st request env results now :
  validate request = true →
  CacheManager.get (cache st) (t_get env) (cache_key request) = None →
  orchestrator env (ScrapeRequest.query request) (ScrapeRequest.sources request)
  = Returned results →
  Forall (λ res, ScrapingResult.success res = false) results →
  (now - t_set env < CacheManager.default_ttl (cache st))%Z →
  ∃ r, (post_scrape st request env).2 = Ok200 r
       ∧ ScrapeResponse.success r = false
       ∧ ScrapeResponse.successful_sources r = 0%nat
       ∧ ScrapeResponse.total_sources r = length results
       ∧ CacheManager.get (cache (post_scrape st request env).1) now
           (cache_key request) = Some r.
Proof.
  intros Hv Hget Horch Hall Hnow.
  rewrite (post_scrape_valid _ _ _ Hv).
  rewrite (scrape_sources_fresh _ _ _ _ Hget Horch). simpl.
  exists (fresh_response request env results).
  assert (List.filter ScrapingResult.success results = []) as Hnil.
  { clear -Hall. induction Hall as [|res results Hres _ IH]; simpl;
      [reflexivity|]. now rewrite Hres. }
  split; [reflexivity|]. unfold fresh_response. rewrite Hnil. simpl.
  repeat split.
  unfold CacheManager.get. simpl. rewrite lookup_insert_eq. simpl.
  apply Z.ltb_lt in Hnow. now rewrite Hnow.
Qed.

Lemma unsuccessful_response_is_cached_witness :
  ∃ r, (post_scrape (initial 3600) request_Hello env_all_failed).2 = Ok200 r
       ∧ ScrapeResponse.success r = false
       ∧ ScrapeResponse.successful_sources r = 0%nat
       ∧ ScrapeResponse.total_sources r = 1%nat
       ∧ CacheManager.get
           (cache (post_scrape (initial 3600) request_Hello env_all_failed).1)
           500 (cache_key request_Hello) = Some r.
Proof.
  apply (unsuccessful_response_is_cached (initial 3600) request_Hello
           env_all_failed [pubmed_failed] 500);
    try reflexivity.
  repeat constructor.
Defined.

(** ** Sequences of calls *)

(** Over any sequence of calls, the hit counter and the miss counter
    together grow by the number of requests that pass validation. *)
Theorem requests_accounted st calls :
  (cache_hits (run st calls) + cache_misses (run st calls)
   = cache_hits st + cache_misses st
     + length (List.filter (λ c, validate c.1) calls))%nat.
Proof.
  revert st. induction calls as [|[request env] calls IH]; intros st; simpl;
    [lia|].
  rewrite IH.
  destruct (post_scrape_cases st request env)
    as [[Hv E]|[(Hv & _ & E)|[(Hv & _ & _ & E)|(rs & Hv & _ & _ & E & E')]]];
    rewrite E; try rewrite E'; rewrite Hv; simpl; lia.
Qed.

Lemma run_reachable default_ttl calls :
  reachable (run (initial default_ttl) calls).
Proof.
  assert (∀ st, reachable st → reachable (run st calls)) as H.
  { induction calls as [|[request env] calls IH]; intros st Hst; simpl;
      [exact Hst|]. apply IH. now apply reachable_step. }
  apply H, reachable_initial.
Qed.

(** ** The normalised query *)

Section NormalisedQuery.

Import PyStr.

Lemma is_upper_lower_char c : is_upper (lower_char c) = false.
Proof. destruct c as [[] [] [] [] [] [] [] []]; reflexivity. Qed.

Lemma has_upper_lower s : has_upper (lower s) = false.
Proof.
  induction s as [|c s IH]; simpl; [reflexivity|].
  now rewrite is_upper_lower_char, IH.
Qed.

Lemma has_upper_lstrip s : has_upper s = false → has_upper (lstrip s) = false.
Proof.
  induction s as [|c s IH]; simpl; [easy|].
  intros H. apply orb_false_iff in H as [Hc Hs].
  destruct (is_space c); [now apply IH|]. simpl. now rewrite Hc, Hs.
Qed.

Lemma has_upper_rstrip s : has_upper s = false → has_upper (rstrip s) = false.
Proof.
  induction s as [|c s IH]; simpl; [easy|].
  intros H. apply orb_false_iff in H as [Hc Hs]. specialize (IH Hs).
  destruct (rstrip s) as [|d t].
  - destruct (is_space c); simpl; [reflexivity|now rewrite Hc].
  - change (has_upper (String c (String d t)))
      with (is_upper c || has_upper (String d t)).
    now rewrite Hc, IH.
Qed.

Lemma starts_with_space_lstrip s : starts_with_space (lstrip s) = false.
Proof.
  induction s as [|c s IH]; simpl; [reflexivity|].
  destruct (is_space c) eqn:E; [exact IH|exact E].
Qed.

Lemma starts_with_space_rstrip s :
  starts_with_space s = false → starts_with_space (rstrip s) = false.
Proof.
  destruct s as [|c s]; simpl; [easy|]. intros E.
  rewrite E. now destruct (rstrip s).
Qed.

Lemma ends_with_space_rstrip s : ends_with_space (rstrip s) = false.
Proof.
  induction s as [|c s IH]; simpl; [reflexivity|].
  destruct (rstrip s) as [|d t].
  - destruct (is_space c) eqn:E; simpl; [reflexivity|exact E].
  - exact IH.
Qed.

(** The normalised query neither starts nor ends with white space and holds
    no upper-case character. *)
Theorem normalized_query_clean q :
  starts_with_space (normalized_query q) = false
  ∧ ends_with_space (normalized_query q) = false
  ∧ has_upper (normalized_query q) = false.
Proof.
  unfold normalized_query, strip. split; [|split].
  - apply starts_with_space_rstrip, starts_with_space_lstrip.
  - apply ends_with_space_rstrip.
  - apply has_upper_rstrip, has_upper_lstrip, has_upper_lower.
Qed.

Lemma all_space_lower s : all_space (lower s) = all_space s.
Proof.
  induction s as [|c s IH]; simpl; [reflexivity|].
  now rewrite is_space_lower_char, IH.
Qed.

Lemma lstrip_all_space s : all_space s = true → lstrip s = EmptyString.
Proof.
  induction s as [|c s IH]; simpl; [reflexivity|].
  intros H. apply andb_true_iff in H as [-> Hs]. now apply IH.
Qed.

Lemma all_space_length s :
  all_space s = true → s ≠ EmptyString → (1 ≤ String.length s)%nat.
Proof. destruct s; simpl; [congruence|lia]. Qed.

(** A query of white space only, of 1 to 500 characters, passes validation;
    its normalised form is empty, so all such queries share the cache key
    that starts with the bar. *)
Theorem blank_query_accepted request :
  all_space (ScrapeRequest.query request) = true →
  ScrapeRequest.query request ≠ EmptyString →
  (String.length (ScrapeRequest.query request) ≤ 500)%nat →
  validate request = true
  ∧ cache_key request
    = "|" ++ join "," (sources_or_empty (ScrapeRequest.sources request)).
Proof.
  intros Hsp Hne Hlen. split.
  - unfold validate. apply andb_true_iff. split; apply Nat.leb_le;
      [now apply all_space_length|exact Hlen].
  - unfold cache_key, normalized_query, strip.
    rewrite lstrip_all_space by now rewrite all_space_lower.
    reflexivity.
Qed.

Lemma blank_query_accepted_witness :
  validate blank_request = true
  ∧ cache_key blank_request = "|wikipedia".
Proof.
  apply (blank_query_accepted blank_request);
    [reflexivity|discriminate|simpl; lia].
Defined.

(** ** When two requests share a cache key *)

Lemma contains_char_app c a b :
  contains_char c (a ++ b) = contains_char c a || contains_char c b.
Proof.
  induction a as [|d a IH]; simpl; [reflexivity|].
  now rewrite IH, orb_assoc.
Qed.

(** Two strings cut at the first occurrence of [c]. *)
Lemma split_at_first c a a' r r' :
  contains_char c a = false →
  contains_char c a' = false →
  a ++ String c r = a' ++ String c r' →
  a = a' ∧ r = r'.
Proof.
  revert a'. induction a as [|d a IH]; intros [|d' a']; simpl.
  - intros _ _ [= ->]. now split.
  - intros _ H [= <- _]. now rewrite Ascii.eqb_refl in H.
  - intros H _ [= -> _]. now rewrite Ascii.eqb_refl in H.
  - intros H H' [= <- E].
    apply orb_false_iff in H as [_ H]. apply orb_false_iff in H' as [_ H'].
    destruct (IH a' H H' E) as [-> ->]. now split.
Qed.

Lemma contains_bar_lower_char c :
  Ascii.eqb "|" (lower_char c) = Ascii.eqb "|" c.
Proof. destruct c as [[] [] [] [] [] [] [] []]; reflexivity. Qed.

Lemma contains_bar_lower s :
  contains_char "|" (lower s) = contains_char "|" s.
Proof.
  induction s as [|c s IH]; [reflexivity|].
  cbn [lower contains_char]. now rewrite contains_bar_lower_char, IH.
Qed.

Lemma contains_char_lstrip c s :
  contains_char c s = false → contains_char c (lstrip s) = false.
Proof.
  induction s as [|d s IH]; simpl; [easy|].
  intros H. destruct (is_space d); [|exact H].
  apply orb_false_iff in H as [_ H]. now apply IH.
Qed.

Lemma contains_char_rstrip c s :
  contains_char c s = false → contains_char c (rstrip s) = false.
Proof.
  induction s as [|d s IH]; simpl; [easy|].
  intros H. apply orb_false_iff in H as [Hd Hs]. specialize (IH Hs).
  destruct (rstrip s) as [|e t].
  - destruct (is_space d); simpl; [reflexivity|now rewrite Hd].
  - change (contains_char c (String d (String e t)))
      with (Ascii.eqb c d || contains_char c (String e t)).
    now rewrite Hd, IH.
Qed.

Lemma normalized_query_no_bar q :
  contains_char "|" q = false →
  contains_char "|" (normalized_query q) = false.
Proof.
  intros H. unfold normalized_query, strip.
  apply contains_char_rstrip, contains_char_lstrip.
  now rewrite contains_bar_lower.
Qed.

Lemma join_cons sep x y l :
  join sep (x :: y :: l) = x ++ sep ++ join sep (y :: l).
Proof. reflexivity. Qed.

(** Joining plain identifiers with commas loses nothing. *)
Lemma join_plain_inj l1 l2 :
  Forall plain_source l1 → Forall plain_source l2 →
  join "," l1 = join "," l2 → l1 = l2.
Proof.
  intros H1. revert l2.
  induction H1 as [|x l1 [Hx Hcx] Hl1 IH]; intros l2 H2 E.
  - destruct H2 as [|y l2 [Hy _] _]; [reflexivity|].
    destruct l2; simpl in E; [congruence|].
    destruct y; [congruence|discriminate].
  - destruct H2 as [|y l2 [Hy Hcy] Hl2].
    { destruct l1; simpl in E; [congruence|].
      destruct x; [congruence|discriminate]. }
    destruct l1 as [|x' l1], l2 as [|y' l2].
    + simpl in E. now subst.
    + rewrite join_cons in E. change (join "," [x]) with x in E. subst x.
      rewrite contains_char_app in Hcx. simpl in Hcx.
      now rewrite orb_true_r in Hcx.
    + rewrite join_cons in E. change (join "," [y]) with y in E. subst y.
      rewrite contains_char_app in Hcy. simpl in Hcy.
      now rewrite orb_true_r in Hcy.
    + rewrite !join_cons in E.
      destruct (split_at_first _ _ _ _ _ Hcx Hcy E) as [-> E'].
      f_equal. now apply IH.
Qed.

(** For requests whose query holds no bar and whose source identifiers are
    not empty and hold no comma, the cache key is shared exactly by the
    requests with the same normalised query and the same source sequence. *)
Theorem cache_key_injective r1 r2 :
  contains_char "|" (ScrapeRequest.query r1) = false →
  contains_char "|" (ScrapeRequest.query r2) = false →
  Forall plain_source (sources_or_empty (ScrapeRequest.sources r1)) →
  Forall plain_source (sources_or_empty (ScrapeRequest.sources r2)) →
  cache_key r1 = cache_key r2
  ↔ normalized_query (ScrapeRequest.query r1)
    = normalized_query (ScrapeRequest.query r2)
    ∧ sources_or_empty (ScrapeRequest.sources r1)
      = sources_or_empty (ScrapeRequest.sources r2).
Proof.
  intros Hq1 Hq2 Hs1 Hs2. split.
  - unfold cache_key. intros E.
    apply split_at_first in E as [Eq Ej];
      [|now apply normalized_query_no_bar..].
    split; [exact Eq|]. now apply join_plain_inj.
  - intros [Eq Es]. unfold cache_key. now rewrite Eq, Es.
Qed.

Lemma cache_key_injective_witness :
  cache_key request_wp = cache_key request_pw
  ↔ normalized_query (ScrapeRequest.query request_wp)
    = normalized_query (ScrapeRequest.query request_pw)
    ∧ sources_or_empty (ScrapeRequest.sources request_wp)
      = sources_or_empty (ScrapeRequest.sources request_pw).
Proof.
  apply (cache_key_injective request_wp request_pw);
    try reflexivity;
    repeat constructor; discriminate.
Defined.

End NormalisedQuery.

(** ** The listing of the sources *)

Lemma elem_of_cons_ne (s : string) (l : list string) (x : string) :
  x ≠ s → x ∈ s :: l ↔ x ∈ l.
Proof.
  intros Hne. rewrite elem_of_cons.
  split; [intros [?|?]; [contradiction|assumption]|now right].
Qed.

Lemma collect_source_configs_ok self available acc m :
  collect_source_configs self available acc = inr m →
  ∀ source,
    m !! source
    = if bool_decide (source ∈ available) then
        match lookup_source_config self source with
        | Found c => Some (source_config_dict c)
        | _ => acc !! source
        end
      else acc !! source.
Proof.
  revert acc. induction available as [|s available IH]; intros acc;
    cbn [collect_source_configs].
  - intros [= <-] source. case_bool_decide as Hin; [|reflexivity].
    now apply elem_of_nil in Hin.
  - destruct (lookup_source_config self s) as [c| |msg] eqn:Hs;
      [| |discriminate]; intros H source; rewrite (IH _ H source).
    + destruct (decide (source = s)) as [->|Hne].
      * rewrite (bool_decide_eq_true_2 (s ∈ s :: available)) by left.
        rewrite Hs, lookup_insert_eq. now case_bool_decide.
      * rewrite lookup_insert_ne by congruence.
        now rewrite (bool_decide_ext _ _ (elem_of_cons_ne s available source Hne)).
    + destruct (decide (source = s)) as [->|Hne].
      * rewrite (bool_decide_eq_true_2 (s ∈ s :: available)) by left.
        rewrite Hs. now case_bool_decide.
      * now rewrite (bool_decide_ext _ _ (elem_of_cons_ne s available source Hne)).
Qed.

Lemma collect_source_configs_raised self available acc message :
  collect_source_configs self available acc = inl message
  ↔ ∃ before source after,
      available = (before ++ source :: after)%list
      ∧ lookup_source_config self source = LookupRaised message
      ∧ Forall (λ s, ∀ m, lookup_source_config self s ≠ LookupRaised m)
               before.
Proof.
  revert acc. induction available as [|s available IH]; intros acc;
    cbn [collect_source_configs].
  - split; [discriminate|]. intros (b & x & a & E & _). now destruct b.
  - destruct (lookup_source_config self s) as [c| |msg] eqn:Hs.
    1,2: rewrite IH; split;
      [ intros (b & x & a & -> & Hx & Hb); exists (s :: b), x, a;
        split; [reflexivity|]; split; [exact Hx|];
        constructor; [intros m; congruence|exact Hb]
      | intros (b & x & a & E & Hx & Hb); destruct b as [|s' b];
        [ injection E as -> ->; congruence
        | injection E as -> ->; exists b, x, a;
          split; [reflexivity|]; split; [exact Hx|];
          now apply Forall_cons in Hb as [_ Hb] ] ].
    split.
    + intros [= ->]. exists [], s, available. repeat split; [exact Hs|constructor].
    + intros (b & x & a & E & Hx & Hb). destruct b as [|s' b].
      * injection E as -> ->. congruence.
      * injection E as -> ->. apply Forall_cons in Hb as [Hb _].
        now destruct (Hb msg).
Qed.

Lemma get_sources_available self available r :
  get_sources self (Created available) = SourcesOk r →
  SourcesResponse.available_sources r = available.
Proof.
  unfold get_sources. destruct (UNIFIED_CONFIG_AVAILABLE self).
  - destruct (collect_source_configs self available ∅); [discriminate|].
    now intros [= <-].
  - now intros [= <-].
Qed.

(** A successful listing names the scrapers of the orchestrator in their
    order, and holds a configuration entry exactly for the listed sources
    for which the configuration answers one, with its four fields copied;
    without the unified configuration there is no entry at all. *)
Theorem get_sources_entries self available r source :
  get_sources self (Created available) = SourcesOk r →
  SourcesResponse.available_sources r = available
  ∧ SourcesResponse.source_configs r !! source
    = if UNIFIED_CONFIG_AVAILABLE self && bool_decide (source ∈ available) then
        match lookup_source_config self source with
        | Found c =>
            Some (SourceConfigDict.mk (SourceConfig.name c)
                    (SourceConfig.enabled c) (SourceConfig.rate_limit_delay c)
                    (SourceConfig.base_url c))
        | _ => None
        end
      else None.
Proof.
  unfold get_sources. destruct (UNIFIED_CONFIG_AVAILABLE self); simpl.
  - destruct (collect_source_configs self available ∅) as [msg|m] eqn:Hc;
      [discriminate|].
    intros [= <-]. simpl. split; [reflexivity|].
    rewrite (collect_source_configs_ok _ _ _ _ Hc source), lookup_empty.
    case_bool_decide; [|reflexivity].
    now destruct (lookup_source_config self source).
  - intros [= <-]. simpl. split; [reflexivity|]. apply lookup_empty.
Qed.

Lemma get_sources_entries_witness :
  SourcesResponse.available_sources
    (SourcesResponse.mk ["wikipedia"; "pubmed"]
       {["wikipedia" := source_config_dict wikipedia_config]})
  = ["wikipedia"; "pubmed"]
  ∧ SourcesResponse.source_configs
      (SourcesResponse.mk ["wikipedia"; "pubmed"]
         {["wikipedia" := source_config_dict wikipedia_config]})
    !! "wikipedia"
    = if UNIFIED_CONFIG_AVAILABLE server_example
         && bool_decide ("wikipedia" ∈ ["wikipedia"; "pubmed"]) then
        match lookup_source_config server_example "wikipedia" with
        | Found c =>
            Some (SourceConfigDict.mk (SourceConfig.name c)
                    (SourceConfig.enabled c) (SourceConfig.rate_limit_delay c)
                    (SourceConfig.base_url c))
        | _ => None
        end
      else None.
Proof.
  apply (get_sources_entries server_example ["wikipedia"; "pubmed"]
           (SourcesResponse.mk ["wikipedia"; "pubmed"]
              {["wikipedia" := source_config_dict wikipedia_config]})
           "wikipedia").
  vm_compute. reflexivity.
Defined.

(** For a server built by the constructor, the listing fails in two cases
    only: the creation of the orchestrator raises, or the unified
    configuration is in use and the lookup of one listed source raises; the
    first such source decides the message, and no partial listing is
    returned. *)
Theorem get_sources_failure available_flag cfg started created detail :
  get_sources (UnifiedServer_init available_flag cfg started) created
  = Http500 detail
  ↔ (∃ message, created = CreationRaised message
                ∧ detail = "Failed to retrieve sources: " ++ message)
    ∨ (∃ before source after message,
         created = Created (before ++ source :: after)%list
         ∧ available_flag = true
         ∧ Config.get_source_config cfg source = LookupRaised message
         ∧ Forall (λ s, ∀ m, Config.get_source_config cfg s ≠ LookupRaised m)
                  before
         ∧ detail = "Failed to retrieve sources: " ++ message).
Proof.
  unfold get_sources.
  destruct created as [available|message].
  - destruct available_flag; cbn [UnifiedServer_init UNIFIED_CONFIG_AVAILABLE].
    + destruct (collect_source_configs _ available ∅)
        as [msg|m] eqn:Hc.
      * split.
        -- intros [= <-]. right.
           apply collect_source_configs_raised in Hc
             as (b & x & a & -> & Hx & Hb).
           exists b, x, a, msg. repeat split; assumption.
        -- intros [(m & Hm & _)|(b & x & a & m & E & _ & Hx & Hb & ->)];
             [discriminate|].
           injection E as ->.
           assert (collect_source_configs
                     (UnifiedServer_init true cfg started)
                     (b ++ x :: a) ∅ = inl m) as Hc'
             by (apply collect_source_configs_raised; now exists b, x, a).
           unfold UnifiedServer_init in Hc'. congruence.
      * split; [discriminate|].
        intros [(m' & Hm & _)|(b & x & a & m' & E & _ & Hx & Hb & ->)];
          [discriminate|].
        injection E as ->.
        assert (collect_source_configs
                  (UnifiedServer_init true cfg started)
                  (b ++ x :: a) ∅ = inl m') as Hc'
          by (apply collect_source_configs_raised; now exists b, x, a).
        unfold UnifiedServer_init in Hc'. congruence.
    + split; [discriminate|].
      intros [(m & Hm & _)|(b & x & a & m & _ & Hf & _)]; discriminate.
  - split.
    + intros [= <-]. left. now exists message.
    + intros [(m & [= ->] & ->)|(b & x & a & m & Hc & _)];
        [reflexivity|discriminate].
Qed.

(** ** The health check *)

(** For a server built by the constructor, the health check fails only when
    the creation of the orchestrator raises; otherwise it answers
    ["healthy"], the time since the start, the version, the environment of
    the configuration (["unknown"] without it) and the scrapers of the
    orchestrator. *)
Lemma health_check_of_built_server available_flag cfg started created now :
  health_check (UnifiedServer_init available_flag cfg started) created now
  = match created with
    | CreationRaised message => Http503 ("Service unhealthy: " ++ message)
    | Created scrapers =>
        HealthOk
          (HealthResponse.mk "healthy" (now - started) "2.0.0"
             (if available_flag then Config.environment cfg else "unknown")
             scrapers)
    end.
Proof. destruct created, available_flag; reflexivity. Qed.

(** When the listing of the sources succeeds, the health check made on the
    same orchestrator succeeds too and names the same sources. *)
Theorem health_agrees_with_sources available_flag cfg started created now r :
  get_sources (UnifiedServer_init available_flag cfg started) created
  = SourcesOk r →
  ∃ h, health_check (UnifiedServer_init available_flag cfg started) created now
       = HealthOk h
       ∧ HealthResponse.status h = "healthy"
       ∧ HealthResponse.scrapers_available h
         = SourcesResponse.available_sources r.
Proof.
  intros H. rewrite health_check_of_built_server.
  destruct created as [available|message]; [|discriminate].
  eexists. split; [reflexivity|]. split; [reflexivity|]. simpl.
  symmetry. exact (get_sources_available _ _ _ H).
Qed.

Lemma health_agrees_with_sources_witness :
  ∃ h, health_check server_example (Created ["wikipedia"; "pubmed"]) 1500
       = HealthOk h
       ∧ HealthResponse.status h = "healthy"
       ∧ HealthResponse.scrapers_available h = ["wikipedia"; "pubmed"].
Proof.
  apply (health_agrees_with_sources true config_example 1000
           (Created ["wikipedia"; "pubmed"]) 1500
           (SourcesResponse.mk ["wikipedia"; "pubmed"]
              {["wikipedia" := source_config_dict wikipedia_config]})).
  vm_compute. reflexivity.
Defined.

(** ** The research endpoint *)

Lemma dict_get_insert_ne payload key v k d :
  key ≠ k → dict_get (<[key := v]> payload) k d = dict_get payload k d.
Proof. intros H. unfold dict_get. now rewrite lookup_insert_ne. Qed.

(** The research endpoint reads seven keys of the body and nothing else: a
    value under any other key changes neither the request handed to the
    engine nor the answer. *)
Theorem research_ignores_other_keys {R : Type}
    (engine : ResearchRequest.t → Researched R) payload key v :
  key ∉ research_keys →
  research_request (<[key := v]> payload) = research_request payload
  ∧ research_endpoint engine (<[key := v]> payload)
    = research_endpoint engine payload.
Proof.
  intros Hk.
  assert (research_request (<[key := v]> payload) = research_request payload)
    as E.
  { unfold research_request, research_keys in *.
    rewrite !dict_get_insert_ne; [reflexivity|..];
      intros ->; apply Hk; set_solver. }
  split; [exact E|]. unfold research_endpoint. now rewrite E.
Qed.

Lemma research_ignores_other_keys_witness :
  research_request (<["debug" := PyBool true]> {["query" := PyStr "graphs"]})
  = research_request {["query" := PyStr "graphs"]}
  ∧ research_endpoint (λ _, ResearchRaised (R := string) "engine down")
      (<["debug" := PyBool true]> {["query" := PyStr "graphs"]})
    = research_endpoint (λ _, ResearchRaised (R := string) "engine down")
        {["query" := PyStr "graphs"]}.
Proof.
  apply (research_ignores_other_keys
           (λ _, ResearchRaised (R := string) "engine down")
           {["query" := PyStr "graphs"]} "debug" (PyBool true)).
  vm_compute. intros H. repeat (apply elem_of_cons in H as [H|H]; [discriminate|]).
  now apply elem_of_nil in H.
Defined.

(** ** What a call does to the cache *)

